(** * Event planner: RSVP flow and identity service

    A shallow embedding of [routes/rsvps.js], [routes/auth.js],
    [middleware/auth.js] and the tables of [database/schema.sql].

    The SQLite store is a record of tables; each table is the list of its
    rows in rowid order.  A route handler is a function from the request
    (session, body, clock readings), the store and the failures the driver
    reports for each statement, to the reply, the store afterwards and the
    write statements that took effect. *)

From Stdlib Require Import ZArith List String Bool Lia Permutation.
Import ListNotations.

Local Open Scope Z_scope.
Local Open Scope string_scope.

(** ** The store: [database/schema.sql] *)

Module Store.

(** [users]: [role] is 'user' or 'admin' (a CHECK constraint). *)
Record User := {
  u_id : Z;
  u_username : string;
  u_email : string;
  u_password_hash : string;
  u_role : string;
  u_first_name : string;
  u_last_name : string
}.

(** [events].  [e_event_date] is the time value, in milliseconds, that
    [new Date(event.event_date)] gives for the stored text, [None] when the
    text is no date (the time value is then NaN).  [e_max_attendees] is
    [None] for SQL NULL. *)
Record Event := {
  e_id : Z;
  e_title : string;
  e_description : option string;
  e_event_date : option Z;
  e_location : string;
  e_max_attendees : option Z;
  e_created_by : Z;
  e_status : string
}.

(** [rsvps]: [r_notes] is [None] for SQL NULL. *)
Record Rsvp := {
  r_id : Z;
  r_user_id : Z;
  r_event_id : Z;
  r_status : string;
  r_rsvp_date : Z;
  r_notes : option string
}.

(** The three tables and the AUTOINCREMENT counters of [sqlite_sequence]. *)
Record Db := {
  users : list User;
  events : list Event;
  rsvps : list Rsvp;
  users_seq : Z;
  rsvps_seq : Z
}.

Definition set_rsvps (d : Db) (l : list Rsvp) (seq : Z) : Db :=
  {| users := users d; events := events d; rsvps := l;
     users_seq := users_seq d; rsvps_seq := seq |}.

Definition set_users (d : Db) (l : list User) (seq : Z) : Db :=
  {| users := l; events := events d; rsvps := rsvps d;
     users_seq := seq; rsvps_seq := rsvps_seq d |}.

(** What the driver hands to a callback: [Err] is a non-null [err]. *)
Inductive Result (A : Type) : Type :=
| Err : Result A
| Ok : A -> Result A.
Arguments Err {A}.
Arguments Ok {A} _.

(** A statement that the store refuses for a reason outside the tables
    (I/O, a lock): [fault] is the driver's report for this statement. *)
Definition db_call {A : Type} (fault : bool) (a : A) : Result A :=
  if fault then Err else Ok a.

(** AUTOINCREMENT: one more than the largest rowid the table ever had. *)
Definition max_rowid (ids : list Z) : Z := fold_right Z.max 0 ids.

Definition next_rowid (seq : Z) (ids : list Z) : Z :=
  Z.max seq (max_rowid ids) + 1.

(** *** Statements on [events] *)

(** SELECT id, title, max_attendees, event_date FROM events
    WHERE id = ? AND status = "active" *)
Definition is_active_event (eventId : Z) (e : Event) : bool :=
  (e_id e =? eventId)%Z && (e_status e =? "active")%string.

Definition select_active_event (d : Db) (eventId : Z) : option Event :=
  find (is_active_event eventId) (events d).

(** *** Statements on [rsvps] *)

Definition rsvp_for (userId eventId : Z) (r : Rsvp) : bool :=
  (r_user_id r =? userId)%Z && (r_event_id r =? eventId)%Z.

Definition is_attending (eventId : Z) (r : Rsvp) : bool :=
  (r_event_id r =? eventId)%Z && (r_status r =? "attending")%string.

(** SELECT COUNT( * ) as count FROM rsvps
    WHERE event_id = ? AND status = "attending" *)
Definition count_attending (d : Db) (eventId : Z) : Z :=
  Z.of_nat (List.length (filter (is_attending eventId) (rsvps d))).

(** SELECT id FROM rsvps WHERE user_id = ? AND event_id = ? *)
Definition select_rsvp (d : Db) (userId eventId : Z) : option Rsvp :=
  find (rsvp_for userId eventId) (rsvps d).

(** CHECK (status IN ('attending', 'maybe', 'not_attending')) *)
Definition check_rsvp_status (s : string) : bool :=
  (s =? "attending")%string || (s =? "maybe")%string
  || (s =? "not_attending")%string.

(** UNIQUE(user_id, event_id) *)
Definition unique_rsvp_ok (l : list Rsvp) (userId eventId : Z) : bool :=
  negb (existsb (rsvp_for userId eventId) l).

(** UPDATE rsvps SET status = ?, notes = ?, rsvp_date = CURRENT_TIMESTAMP
    WHERE user_id = ? AND event_id = ? *)
Definition set_response (status : string) (notes : option string) (ts : Z)
    (r : Rsvp) : Rsvp :=
  {| r_id := r_id r; r_user_id := r_user_id r; r_event_id := r_event_id r;
     r_status := status; r_rsvp_date := ts; r_notes := notes |}.

Definition update_rows (userId eventId : Z) (status : string)
    (notes : option string) (ts : Z) (l : list Rsvp) : list Rsvp :=
  map (fun r => if rsvp_for userId eventId r
                then set_response status notes ts r else r) l.

(** The statement fails as a whole when a row to write breaks the CHECK
    constraint; [changes] is the number of rows that matched. *)
Definition update_rsvp (fault : bool) (d : Db) (userId eventId : Z)
    (status : string) (notes : option string) (ts : Z) : Result (Db * nat) :=
  let changes := List.length (filter (rsvp_for userId eventId) (rsvps d)) in
  if fault then Err
  else if negb (check_rsvp_status status) && negb (changes =? 0)%nat then Err
  else Ok (set_rsvps d (update_rows userId eventId status notes ts (rsvps d))
                     (rsvps_seq d), changes).

(** INSERT INTO rsvps (user_id, event_id, status, notes) VALUES (?, ?, ?, ?)
    [rsvp_date] takes its default, CURRENT_TIMESTAMP. *)
Definition insert_rsvp (fault : bool) (d : Db) (userId eventId : Z)
    (status : string) (notes : option string) (ts : Z) : Result (Db * Rsvp) :=
  if fault then Err
  else if negb (check_rsvp_status status) then Err
  else if negb (unique_rsvp_ok (rsvps d) userId eventId) then Err
  else
    let rowid := next_rowid (rsvps_seq d) (map r_id (rsvps d)) in
    let row := {| r_id := rowid; r_user_id := userId; r_event_id := eventId;
                  r_status := status; r_rsvp_date := ts; r_notes := notes |} in
    Ok (set_rsvps d (rsvps d ++ [row]) rowid, row).

(** DELETE FROM rsvps WHERE user_id = ? AND event_id = ?
    The second component is [this.changes]. *)
Definition delete_rsvp (fault : bool) (d : Db) (userId eventId : Z)
    : Result (Db * nat) :=
  if fault then Err
  else
    let kept := filter (fun r => negb (rsvp_for userId eventId r)) (rsvps d) in
    Ok (set_rsvps d kept (rsvps_seq d),
        (List.length (rsvps d) - List.length kept)%nat).

(** SELECT r.*, e.title, e.event_date, e.location
    FROM rsvps r JOIN events e ON r.event_id = e.id
    WHERE r.user_id = ? AND r.event_id = ? *)
Record RsvpDetails := {
  rd_rsvp : Rsvp;
  rd_title : string;
  rd_event_date : option Z;
  rd_location : string
}.

Definition select_rsvp_details (d : Db) (userId eventId : Z)
    : option RsvpDetails :=
  match find (rsvp_for userId eventId) (rsvps d) with
  | Some r =>
      match find (fun e => (e_id e =? r_event_id r)%Z) (events d) with
      | Some e => Some {| rd_rsvp := r; rd_title := e_title e;
                          rd_event_date := e_event_date e;
                          rd_location := e_location e |}
      | None => None
      end
  | None => None
  end.

(** *** Statements on [users] *)

(** SELECT ... FROM users WHERE username = ? OR email = ? *)
Definition user_named (username email : string) (u : User) : bool :=
  (u_username u =? username)%string || (u_email u =? email)%string.

Definition select_user (d : Db) (username email : string) : option User :=
  find (user_named username email) (users d).

(** SELECT id, username, email, role, first_name, last_name
    FROM users WHERE id = ? *)
Definition select_user_by_id (d : Db) (id : Z) : option User :=
  find (fun u => (u_id u =? id)%Z) (users d).

(** INSERT INTO users (username, email, password_hash, first_name, last_name)
    [role] takes its default 'user'; username and email are UNIQUE.
    The second component is [this.lastID]. *)
Definition insert_user (fault : bool) (d : Db) (username email hash
    first last : string) : Result (Db * Z) :=
  if fault then Err
  else if existsb (fun u => (u_username u =? username)%string) (users d)
          || existsb (fun u => (u_email u =? email)%string) (users d)
  then Err
  else
    let rowid := next_rowid (users_seq d) (map u_id (users d)) in
    let row := {| u_id := rowid; u_username := username; u_email := email;
                  u_password_hash := hash; u_role := "user";
                  u_first_name := first; u_last_name := last |} in
    Ok (set_users d (users d ++ [row]) rowid, rowid).

(** The constraints of the schema that the proofs rely on. *)
Definition rsvp_key (r : Rsvp) : Z * Z := (r_user_id r, r_event_id r).

Definition rsvps_unique (d : Db) : Prop := NoDup (map rsvp_key (rsvps d)).

(** The rows the COUNT statement counts, on a bare table. *)
Definition attending_in (eid : Z) (l : list Rsvp) : nat :=
  List.length (filter (is_attending eid) l).

Definition b2n (b : bool) : nat := if b then 1%nat else 0%nat.

End Store.

(** ** Replies and sessions *)

Module Http.

(** [req.session.user], as the login and registration handlers store it. *)
Record SessionUser := {
  su_id : Z;
  su_username : string;
  su_email : string;
  su_role : string;
  su_first_name : string;
  su_last_name : string
}.

Definition Session := option SessionUser.

(** The JSON documents the handlers send. *)
Inductive Body :=
| JError (error : string)
| JErrorMessage (error message : string)
| JValidation (details : list string)
| JMessage (message : string)
| JRsvpSaved (rsvp : option Store.RsvpDetails)
| JUser (message : string) (user : SessionUser).

(** [res.status(code).json(body)]; [res.json] alone sends status 200.
    [Uncaught] is a handler that threw outside every [try] and sent
    nothing. *)
Inductive Response :=
| Reply (status : Z) (body : Body)
| Uncaught.

Definition is_success (r : Response) : bool :=
  match r with
  | Reply s _ => (200 <=? s)%Z && (s <? 300)%Z
  | Uncaught => false
  end.

(** [middleware/auth.js], [authMiddleware]: [inr u] is the call of
    [next()] with [req.session.user = u]. *)
Definition authMiddleware (s : Session) : Response + SessionUser :=
  match s with
  | None =>
      inl (Reply 401 (JErrorMessage "Authentication required"
                        "Please log in to access this resource"))
  | Some u =>
      if (su_id u =? 0)%Z || (su_username u =? "")%string
      then inl (Reply 401 (JErrorMessage "Invalid session"
                  "Session data is corrupted, please log in again"))
      else inr u
  end.

End Http.

(** ** [routes/rsvps.js] *)

Module Rsvps.
Import Store Http.

(** The body of POST /rsvps.  [eventId] is [None] when the field is
    missing or is no integer literal. *)
Record RsvpBody := {
  eventId : option Z;
  status : string;
  notes : option string
}.

(** The clock readings of one request: [date_now] is [new Date()] in the
    handler, [current_timestamp] is SQLite's CURRENT_TIMESTAMP. *)
Record Clock := {
  date_now : Z;
  current_timestamp : Z
}.

(** What the driver reports for each statement of POST /rsvps. *)
Record StoreFaults := {
  fail_event : bool;
  fail_count : bool;
  fail_existing : bool;
  fail_write : bool;
  fail_details : bool
}.

Definition no_faults : StoreFaults :=
  {| fail_event := false; fail_count := false; fail_existing := false;
     fail_write := false; fail_details := false |}.

(** A write statement that took effect. *)
Inductive Write :=
| Inserted (row : Rsvp)
| Updated (userId eventId : Z) (changes : nat)
| Deleted (userId eventId : Z) (changes : nat).

Record Outcome := {
  reply : Response;
  db_after : Db;
  writes : list Write
}.

Definition respond (r : Response) (d : Db) (w : list Write) : Outcome :=
  {| reply := r; db_after := d; writes := w |}.

(** [validateRSVP]: the messages of the failed checks, in field order.
    The length of the note is counted in bytes. *)
Definition validateRSVP (b : RsvpBody) : list string :=
  (match eventId b with
   | Some n => if (1 <=? n)%Z then [] else ["Valid event ID is required"]
   | None => ["Valid event ID is required"]
   end)
  ++ (if check_rsvp_status (status b) then []
      else ["Status must be attending, maybe, or not_attending"])
  ++ (match notes b with
      | Some s => if (String.length s <=? 500)%nat then []
                  else ["Notes cannot exceed 500 characters"]
      | None => []
      end).

(** [notes || null] *)
Definition notes_or_null (n : option string) : option string :=
  match n with
  | Some s => if (s =? "")%string then None else Some s
  | None => None
  end.

(** [new Date(event.event_date) <= new Date()]; false on NaN. *)
Definition not_in_future (event_date : option Z) (now : Z) : bool :=
  match event_date with
  | Some t => (t <=? now)%Z
  | None => false
  end.

(** The truth value of [event.max_attendees]: NULL and 0 are false. *)
Definition declares_capacity (max_attendees : option Z) : bool :=
  match max_attendees with
  | Some c => negb (c =? 0)%Z
  | None => false
  end.

(** [result.count >= event.max_attendees] *)
Definition at_capacity (count : Z) (max_attendees : option Z) : bool :=
  match max_attendees with
  | Some c => (c <=? count)%Z
  | None => false
  end.

(** [getRSVPDetails] *)
Definition getRSVPDetails (f : StoreFaults) (userId eid : Z) (d : Db)
    (w : list Write) : Outcome :=
  match db_call (fail_details f) (select_rsvp_details d userId eid) with
  | Err => respond (Reply 500 (JError "RSVP saved but fetch failed")) d w
  | Ok rsvp => respond (Reply 200 (JRsvpSaved rsvp)) d w
  end.

(** [upsertRSVP] *)
Definition upsertRSVP (f : StoreFaults) (c : Clock) (userId eid : Z)
    (b : RsvpBody) (d : Db) : Outcome :=
  match db_call (fail_existing f) (select_rsvp d userId eid) with
  | Err => respond (Reply 500 (JError "Database error")) d []
  | Ok (Some _) =>
      match update_rsvp (fail_write f) d userId eid (status b)
              (notes_or_null (notes b)) (current_timestamp c) with
      | Err => respond (Reply 500 (JError "Failed to update RSVP")) d []
      | Ok (d', changes) =>
          getRSVPDetails f userId eid d' [Updated userId eid changes]
      end
  | Ok None =>
      match insert_rsvp (fail_write f) d userId eid (status b)
              (notes_or_null (notes b)) (current_timestamp c) with
      | Err => respond (Reply 500 (JError "Failed to create RSVP")) d []
      | Ok (d', row) => getRSVPDetails f userId eid d' [Inserted row]
      end
  end.

(** The callbacks of POST /rsvps, from the event lookup on. *)
Definition checked_rsvp (f : StoreFaults) (c : Clock) (userId eid : Z)
    (b : RsvpBody) (d : Db) : Outcome :=
  match db_call (fail_event f) (select_active_event d eid) with
  | Err => respond (Reply 500 (JError "Database error")) d []
  | Ok None => respond (Reply 404 (JError "Event not found or inactive")) d []
  | Ok (Some event) =>
      if not_in_future (e_event_date event) (date_now c)
      then respond (Reply 400 (JError "Cannot RSVP to past events")) d []
      else if (status b =? "attending")%string
              && declares_capacity (e_max_attendees event)
      then
        match db_call (fail_count f) (count_attending d eid) with
        | Err => respond (Reply 500 (JError "Database error")) d []
        | Ok count =>
            if at_capacity count (e_max_attendees event)
            then respond (Reply 400 (JError "Event is at full capacity")) d []
            else upsertRSVP f c userId eid b d
        end
      else upsertRSVP f c userId eid b d
  end.

(** [router.post('/', authMiddleware, validateRSVP, ...)].  A body that
    passes [validateRSVP] has an integer [eventId]. *)
Definition post_rsvp (f : StoreFaults) (c : Clock) (s : Session)
    (b : RsvpBody) (d : Db) : Outcome :=
  match authMiddleware s with
  | inl r => respond r d []
  | inr user =>
      match validateRSVP b, eventId b with
      | [], Some eid => checked_rsvp f c (su_id user) eid b d
      | details, _ => respond (Reply 400 (JValidation details)) d []
      end
  end.

(** [router.delete('/:eventId', authMiddleware, ...)]; [eid] is the
    path parameter as the store compares it with the integer column. *)
Definition delete_rsvp_route (fault : bool) (s : Session) (eid : Z) (d : Db)
    : Outcome :=
  match authMiddleware s with
  | inl r => respond r d []
  | inr user =>
      match delete_rsvp fault d (su_id user) eid with
      | Err => respond (Reply 500 (JError "Failed to delete RSVP")) d []
      | Ok (d', changes) =>
          if (changes =? 0)%nat
          then respond (Reply 404 (JError "RSVP not found")) d' []
          else respond (Reply 200 (JMessage "RSVP deleted successfully")) d'
                 [Deleted (su_id user) eid changes]
      end
  end.

(** The store after the UPDATE and after the INSERT of [upsertRSVP], and
    the reply of [getRSVPDetails], named for the statements below. *)
Definition db_updated (c : Clock) (userId eid : Z) (b : RsvpBody) (d : Db)
    : Db :=
  set_rsvps d
    (update_rows userId eid (status b) (notes_or_null (notes b))
       (current_timestamp c) (rsvps d))
    (rsvps_seq d).

Definition new_row (c : Clock) (userId eid : Z) (b : RsvpBody) (d : Db)
    : Rsvp :=
  {| r_id := next_rowid (rsvps_seq d) (map r_id (rsvps d));
     r_user_id := userId; r_event_id := eid; r_status := status b;
     r_rsvp_date := current_timestamp c;
     r_notes := notes_or_null (notes b) |}.

Definition db_inserted (c : Clock) (userId eid : Z) (b : RsvpBody) (d : Db)
    : Db :=
  set_rsvps d (rsvps d ++ [new_row c userId eid b d])
    (r_id (new_row c userId eid b d)).

Definition saved_reply (f : StoreFaults) (userId eid : Z) (d : Db)
    : Response :=
  if fail_details f then Reply 500 (JError "RSVP saved but fetch failed")
  else Reply 200 (JRsvpSaved (select_rsvp_details d userId eid)).

(** What [upsertRSVP] can do: nothing (a failure reply), the UPDATE of
    the existing row, or the INSERT of a new one. *)
Inductive upsert_effect (f : StoreFaults) (c : Clock) (u e : Z)
    (b : RsvpBody) (d : Db) : Outcome -> Prop :=
| effect_none r :
    is_success r = false ->
    r <> Reply 500 (JError "RSVP saved but fetch failed") ->
    upsert_effect f c u e b d (respond r d [])
| effect_update r0 :
    select_rsvp d u e = Some r0 ->
    upsert_effect f c u e b d
      (respond (saved_reply f u e (db_updated c u e b d))
         (db_updated c u e b d)
         [Updated u e (List.length (filter (rsvp_for u e) (rsvps d)))])
| effect_insert :
    select_rsvp d u e = None ->
    check_rsvp_status (status b) = true ->
    upsert_effect f c u e b d
      (respond (saved_reply f u e (db_inserted c u e b d))
         (db_inserted c u e b d)
         [Inserted (new_row c u e b d)]).

(** The request reaches [upsertRSVP]: it passed the access gate, the
    validation, the event lookup, the date check and the capacity check. *)
Definition passes_checks (f : StoreFaults) (c : Clock) (s : Session)
    (b : RsvpBody) (d : Db) (u : SessionUser) (eid : Z) (ev : Event) : Prop :=
  authMiddleware s = inr u /\ validateRSVP b = [] /\ eventId b = Some eid
  /\ fail_event f = false /\ select_active_event d eid = Some ev
  /\ not_in_future (e_event_date ev) (date_now c) = false
  /\ ((status b =? "attending")%string
       && declares_capacity (e_max_attendees ev) = true ->
      fail_count f = false
      /\ at_capacity (count_attending d eid) (e_max_attendees ev) = false).

(** Whether the stored RSVP of the user for the event is 'attending'. *)
Definition old_attending (d : Db) (userId eid : Z) : bool :=
  match select_rsvp d userId eid with
  | Some r0 => (r_status r0 =? "attending")%string
  | None => false
  end.

(** The outcome wrote the RSVP table once: one INSERT of one row, or one
    UPDATE that changed one row. *)
Definition one_write (d : Db) (o : Outcome) : Prop :=
  (exists row, writes o = [Inserted row]
               /\ rsvps (db_after o) = (rsvps d ++ [row])%list)
  \/ (exists u e st n ts r0,
        writes o = [Updated u e 1]
        /\ filter (rsvp_for u e) (rsvps d) = [r0]
        /\ rsvps (db_after o) = update_rows u e st n ts (rsvps d)).

(** The body [{ eventId, status, notes }]. *)
Definition rsvp_body (eid : Z) (st : string) (n : option string) : RsvpBody :=
  {| eventId := Some eid; status := st; notes := n |}.

(** A request with all that one call of the handler reads. *)
Record Request := {
  rq_faults : StoreFaults;
  rq_clock : Clock;
  rq_session : Session;
  rq_body : RsvpBody
}.

Definition handle (d : Db) (rq : Request) : Db :=
  db_after (post_rsvp (rq_faults rq) (rq_clock rq) (rq_session rq)
              (rq_body rq) d).

(** Requests served one after the other. *)
Definition serve (reqs : list Request) (d : Db) : Db :=
  fold_left handle reqs d.

End Rsvps.

(** ** [routes/auth.js] *)

Module Auth.
Import Store Http.

Record RegisterBody := {
  reg_username : string;
  reg_email : string;
  reg_password : string;
  reg_firstName : string;
  reg_lastName : string
}.

Record LoginBody := {
  login_username : string;
  login_password : string
}.

(** What the driver reports for the statements of POST /auth/register. *)
Record RegisterFaults := {
  fail_lookup : bool;
  fail_insert : bool;
  fail_fetch : bool
}.

Record AuthOutcome := {
  a_reply : Response;
  a_db : Db;
  a_session : Session
}.

Definition answer (r : Response) (d : Db) (s : Session) : AuthOutcome :=
  {| a_reply := r; a_db := d; a_session := s |}.

(** [/^[a-zA-Z0-9_]+$/] *)
Definition is_word_char (a : Ascii.ascii) : bool :=
  let n := Ascii.nat_of_ascii a in
  ((48 <=? n) && (n <=? 57) || (65 <=? n) && (n <=? 90)
   || (97 <=? n) && (n <=? 122) || (n =? 95))%nat.

Fixpoint all_word_chars (s : string) : bool :=
  match s with
  | EmptyString => true
  | String a rest => is_word_char a && all_word_chars rest
  end.

Definition matches_word (s : string) : bool :=
  negb (s =? "")%string && all_word_chars s.

Definition session_of_row (u : User) : SessionUser :=
  {| su_id := u_id u; su_username := u_username u; su_email := u_email u;
     su_role := u_role u; su_first_name := u_first_name u;
     su_last_name := u_last_name u |}.

Section Handlers.

(** The libraries the handlers call: [isEmail] of express-validator,
    [bcrypt.hash] (the salt is drawn by the library; [None] is a rejected
    promise) and [bcrypt.compare] ([None] is a thrown error). *)
Variable isEmail : string -> bool.
Variable bcrypt_hash : string -> string -> option string.
Variable bcrypt_compare : string -> string -> option bool.

(** [validateRegistration] *)
Definition validateRegistration (b : RegisterBody) : list string :=
  (if (3 <=? String.length (reg_username b))%nat then []
   else ["Username must be at least 3 characters long"])
  ++ (if matches_word (reg_username b) then []
      else ["Username can only contain letters, numbers, and underscores"])
  ++ (if isEmail (reg_email b) then []
      else ["Please provide a valid email address"])
  ++ (if (6 <=? String.length (reg_password b))%nat then []
      else ["Password must be at least 6 characters long"])
  ++ (if (1 <=? String.length (reg_firstName b))%nat then []
      else ["First name is required"])
  ++ (if (1 <=? String.length (reg_lastName b))%nat then []
      else ["Last name is required"]).

(** [validateLogin] *)
Definition validateLogin (b : LoginBody) : list string :=
  (if (1 <=? String.length (login_username b))%nat then []
   else ["Username is required"])
  ++ (if (1 <=? String.length (login_password b))%nat then []
      else ["Password is required"]).

(** [router.post('/register', validateRegistration, ...)] *)
Definition post_register (f : RegisterFaults) (salt : string) (s : Session)
    (b : RegisterBody) (d : Db) : AuthOutcome :=
  match validateRegistration b with
  | _ :: _ as details => answer (Reply 400 (JValidation details)) d s
  | [] =>
      match bcrypt_hash (reg_password b) salt with
      | None => answer (Reply 500 (JError "Internal server error")) d s
      | Some passwordHash =>
          match db_call (fail_lookup f)
                  (select_user d (reg_username b) (reg_email b)) with
          | Err => answer (Reply 500 (JError "Database error")) d s
          | Ok (Some _) =>
              answer (Reply 409 (JError "Username or email already exists"))
                d s
          | Ok None =>
              match insert_user (fail_insert f) d (reg_username b)
                      (reg_email b) passwordHash (reg_firstName b)
                      (reg_lastName b) with
              | Err => answer (Reply 500 (JError "Failed to create user")) d s
              | Ok (d', lastID) =>
                  match db_call (fail_fetch f) (select_user_by_id d' lastID)
                  with
                  | Err =>
                      answer
                        (Reply 500 (JError "User created but fetch failed"))
                        d' s
                  | Ok (Some user) =>
                      answer
                        (Reply 201 (JUser "User registered successfully"
                                      (session_of_row user)))
                        d' (Some (session_of_row user))
                  | Ok None => answer Uncaught d' s
                  end
              end
          end
      end
  end.

(** [router.post('/login', validateLogin, ...)]; [fault] is the driver's
    report for the one statement. *)
Definition post_login (fault : bool) (s : Session) (b : LoginBody) (d : Db)
    : AuthOutcome :=
  match validateLogin b with
  | _ :: _ as details => answer (Reply 400 (JValidation details)) d s
  | [] =>
      match db_call fault
              (select_user d (login_username b) (login_username b)) with
      | Err => answer (Reply 500 (JError "Database error")) d s
      | Ok None =>
          answer (Reply 401 (JError "Invalid username or password")) d s
      | Ok (Some user) =>
          match bcrypt_compare (login_password b) (u_password_hash user) with
          | None => answer (Reply 500 (JError "Authentication error")) d s
          | Some false =>
              answer (Reply 401 (JError "Invalid username or password")) d s
          | Some true =>
              answer (Reply 200 (JUser "Login successful"
                                   (session_of_row user)))
                d (Some (session_of_row user))
          end
      end
  end.

End Handlers.

End Auth.

(** ** A small store for concrete runs *)

Module Examples.
Import Store Http Rsvps.

Definition alice : SessionUser :=
  {| su_id := 2; su_username := "alice"; su_email := "alice@example.com";
     su_role := "user"; su_first_name := "Alice"; su_last_name := "A" |}.

Definition bob : SessionUser :=
  {| su_id := 3; su_username := "bob"; su_email := "bob@example.com";
     su_role := "user"; su_first_name := "Bob"; su_last_name := "B" |}.

Definition alice_row : User :=
  {| u_id := 2; u_username := "alice"; u_email := "alice@example.com";
     u_password_hash := "hash-of-alice"; u_role := "user";
     u_first_name := "Alice"; u_last_name := "A" |}.

(** An active event for one attendee, at time 1000. *)
Definition dinner : Event :=
  {| e_id := 1; e_title := "Dinner"; e_description := None;
     e_event_date := Some 1000; e_location := "Home";
     e_max_attendees := Some 1; e_created_by := 2; e_status := "active" |}.

(** A cancelled event. *)
Definition picnic : Event :=
  {| e_id := 5; e_title := "Picnic"; e_description := None;
     e_event_date := Some 1000; e_location := "Park";
     e_max_attendees := None; e_created_by := 2; e_status := "cancelled" |}.

Definition db0 : Db :=
  {| users := [alice_row]; events := [dinner; picnic]; rsvps := [];
     users_seq := 2; rsvps_seq := 0 |}.

Definition at_time (t : Z) : Clock :=
  {| date_now := t; current_timestamp := t |}.

Definition going : RsvpBody :=
  {| eventId := Some 1; status := "attending"; notes := Some "see you" |}.

Definition perhaps : RsvpBody :=
  {| eventId := Some 1; status := "maybe"; notes := None |}.

Definition to_picnic : RsvpBody :=
  {| eventId := Some 5; status := "attending"; notes := None |}.

Definition request (t : Z) (u : SessionUser) (b : RsvpBody) : Request :=
  {| rq_faults := no_faults; rq_clock := at_time t; rq_session := Some u;
     rq_body := b |}.

(** The store once alice attends the dinner. *)
Definition db1 : Db :=
  db_after (post_rsvp no_faults (at_time 10) (Some alice) going db0).

(** The driver fails on the last read of the request only. *)
Definition details_fault : StoreFaults :=
  {| fail_event := false; fail_count := false; fail_existing := false;
     fail_write := false; fail_details := true |}.

(** Stand-ins for the libraries, for concrete runs of the identity
    service. *)
Definition any_email (e : string) : bool := negb (e =? "")%string.

Definition toy_hash (password salt : string) : option string :=
  Some ("hash-of-" ++ password).

Definition toy_compare (password hash : string) : option bool :=
  Some (hash =? "hash-of-" ++ password)%string.


Definition no_register_faults : Auth.RegisterFaults :=
  {| Auth.fail_lookup := false; Auth.fail_insert := false;
     Auth.fail_fetch := false |}.

Definition login_stranger : Auth.LoginBody :=
  {| Auth.login_username := "mallory"; Auth.login_password := "alice" |}.

Definition login_wrong_password : Auth.LoginBody :=
  {| Auth.login_username := "alice"; Auth.login_password := "guess" |}.

End Examples.

(** ** [routes/rsvps.js]: the RSVPs of an event *)

Module Reads.
Import Store Http.

(** One row of
    SELECT r.status, r.notes, r.rsvp_date, u.username, u.first_name,
           u.last_name
    FROM rsvps r JOIN users u ON r.user_id = u.id WHERE r.event_id = ? *)
Record RsvpView := {
  v_status : string;
  v_notes : option string;
  v_rsvp_date : Z;
  v_username : string;
  v_first_name : string;
  v_last_name : string
}.

Definition view_of (r : Rsvp) (u : User) : RsvpView :=
  {| v_status := r_status r; v_notes := r_notes r;
     v_rsvp_date := r_rsvp_date r; v_username := u_username u;
     v_first_name := u_first_name u; v_last_name := u_last_name u |}.

(** The inner join: an RSVP gives one row for each user row with its
    [user_id], and none when there is no such user. *)
Definition join_users (d : Db) (r : Rsvp) : list RsvpView :=
  map (view_of r) (filter (fun u => (u_id u =? r_user_id r)%Z) (users d)).

Definition of_event (eid : Z) (r : Rsvp) : bool := (r_event_id r =? eid)%Z.

Definition joined_rsvps (d : Db) (eid : Z) : list RsvpView :=
  flat_map (join_users d) (filter (of_event eid) (rsvps d)).

(** ORDER BY r.rsvp_date DESC.  Rows with the same [rsvp_date] are kept in
    the order of the join; SQLite leaves their order open. *)
Fixpoint insert_desc (v : RsvpView) (l : list RsvpView) : list RsvpView :=
  match l with
  | [] => [v]
  | x :: rest =>
      if (v_rsvp_date x <=? v_rsvp_date v)%Z then v :: l
      else x :: insert_desc v rest
  end.

Definition order_by_date_desc (l : list RsvpView) : list RsvpView :=
  fold_right insert_desc [] l.

Definition select_event_rsvps (d : Db) (eid : Z) : list RsvpView :=
  order_by_date_desc (joined_rsvps d eid).

(** [rsvps.filter(r => r.status === s)] *)
Definition with_status (s : string) (l : list RsvpView) : list RsvpView :=
  filter (fun v => (v_status v =? s)%string) l.

(** The document [{ rsvps, grouped, total, attending_count }]. *)
Record EventRsvps := {
  er_rsvps : list RsvpView;
  er_attending : list RsvpView;
  er_maybe : list RsvpView;
  er_not_attending : list RsvpView;
  er_total : nat;
  er_attending_count : nat
}.

Inductive ListReply :=
| ListFailed (r : Response)
| Listed (doc : EventRsvps).

(** [router.get('/event/:eventId', ...)]; [eid] is the path parameter as
    the store compares it with the integer column. *)
Definition get_event_rsvps (fault : bool) (eid : Z) (d : Db) : ListReply :=
  match db_call fault (select_event_rsvps d eid) with
  | Err => ListFailed (Reply 500 (JError "Database error"))
  | Ok rsvps =>
      let attending := with_status "attending" rsvps in
      Listed {| er_rsvps := rsvps;
                er_attending := attending;
                er_maybe := with_status "maybe" rsvps;
                er_not_attending := with_status "not_attending" rsvps;
                er_total := List.length rsvps;
                er_attending_count := List.length attending |}
  end.

(** Sorted from the latest response to the earliest. *)
Fixpoint date_desc (l : list RsvpView) : Prop :=
  match l with
  | [] => True
  | x :: rest =>
      (forall y, In y rest -> v_rsvp_date y <= v_rsvp_date x)
      /\ date_desc rest
  end.

(** Every RSVP row has exactly one user row (the foreign key to a primary
    key). *)
Definition rsvp_users_ok (d : Db) : Prop :=
  NoDup (map u_id (users d))
  /\ forall r, In r (rsvps d) ->
       exists u, In u (users d) /\ u_id u = r_user_id r.

(** CHECK (status IN (...)) on the stored rows. *)
Definition statuses_ok (d : Db) : Prop :=
  forall r, In r (rsvps d) -> check_rsvp_status (r_status r) = true.

End Reads.

(** ** [middleware/auth.js]: the admin gate *)

Module Gate.
Import Store Http.

(** [adminMiddleware]: [authMiddleware] first, then the role. *)
Definition adminMiddleware (s : Session) : Response + SessionUser :=
  match authMiddleware s with
  | inl r => inl r
  | inr u =>
      if negb (su_role u =? "admin")%string
      then inl (Reply 403 (JErrorMessage "Admin access required"
                  "This resource requires administrator privileges"))
      else inr u
  end.

(** [optionalAuthMiddleware]: [req.currentUser]; it always calls
    [next()]. *)
Definition optionalAuthMiddleware (s : Session) : option SessionUser := s.

End Gate.

(** ** [routes/events.js] *)

Module Events.
Import Store Http.

(** The store with the AUTOINCREMENT counter of [events]. *)
Record Catalog := {
  store : Db;
  events_seq : Z
}.

Definition set_events (d : Db) (l : list Event) : Db :=
  {| users := users d; events := l; rsvps := rsvps d;
     users_seq := users_seq d; rsvps_seq := rsvps_seq d |}.

(** The body of POST /events and PUT /events/:id.  [maxAttendees] is
    [None] when the field is missing and [Some None] when it is there but
    is no integer literal. *)
Record EventBody := {
  title : string;
  description : option string;
  eventDate : string;
  location : string;
  maxAttendees : option (option Z)
}.

(** What the driver reports for the statements of one request: the
    ownership read, the write and the read of the written row. *)
Record EventFaults := {
  ef_owner : bool;
  ef_write : bool;
  ef_fetch : bool
}.

Definition no_event_faults : EventFaults :=
  {| ef_owner := false; ef_write := false; ef_fetch := false |}.

(** SELECT e.*, u.username as creator_name, u.first_name, u.last_name
    FROM events e JOIN users u ON e.created_by = u.id WHERE e.id = ? *)
Record EventDetails := {
  ed_event : Event;
  ed_creator_name : string;
  ed_first_name : string;
  ed_last_name : string
}.

Definition has_id (id : Z) (e : Event) : bool := (e_id e =? id)%Z.

Definition select_event (d : Db) (id : Z) : option Event :=
  find (has_id id) (events d).

Definition select_event_details (d : Db) (id : Z) : option EventDetails :=
  match select_event d id with
  | Some e =>
      match select_user_by_id d (e_created_by e) with
      | Some u => Some {| ed_event := e; ed_creator_name := u_username u;
                          ed_first_name := u_first_name u;
                          ed_last_name := u_last_name u |}
      | None => None
      end
  | None => None
  end.

(** The row of GET /events/:id: the event, its creator through a LEFT
    JOIN, and COUNT(r.id) over the LEFT JOIN with the 'attending' RSVPs,
    grouped by the event. *)
Record EventPage := {
  pg_event : Event;
  pg_creator : option User;
  pg_rsvp_count : nat
}.

Definition select_event_page (d : Db) (id : Z) : option EventPage :=
  match select_event d id with
  | Some e =>
      let creators :=
        filter (fun u => (u_id u =? e_created_by e)%Z) (users d) in
      let attending := filter (is_attending (e_id e)) (rsvps d) in
      Some {| pg_event := e; pg_creator := hd_error creators;
              pg_rsvp_count :=
                (Nat.max 1 (List.length creators)
                 * List.length attending)%nat |}
  | None => None
  end.

Inductive EventReply :=
| Plain (r : Response)
| WithEvent (status : Z) (message : string) (event : option EventDetails)
| Page (event : EventPage) (rsvps : list Reads.RsvpView).

Record EventOutcome := {
  ev_reply : EventReply;
  ev_after : Catalog
}.

Definition reply_with (r : EventReply) (c : Catalog) : EventOutcome :=
  {| ev_reply := r; ev_after := c |}.

(** [maxAttendees || null] *)
Definition max_or_null (m : option (option Z)) : option Z :=
  match m with
  | Some (Some n) => if (n =? 0)%Z then None else Some n
  | _ => None
  end.

(** INSERT INTO events (title, description, event_date, location,
    max_attendees, created_by); [status] takes its default 'active'.
    The second component is [this.lastID]. *)
Definition insert_event (fault : bool) (c : Catalog) (row_title : string)
    (row_description : option string) (event_date : option Z)
    (row_location : string) (max_attendees : option Z) (created_by : Z)
    : Result (Catalog * Z) :=
  if fault then Err
  else
    let d := store c in
    let rowid := next_rowid (events_seq c) (map e_id (events d)) in
    let row := {| e_id := rowid; e_title := row_title;
                  e_description := row_description;
                  e_event_date := event_date; e_location := row_location;
                  e_max_attendees := max_attendees;
                  e_created_by := created_by; e_status := "active" |} in
    Ok ({| store := set_events d (events d ++ [row]); events_seq := rowid |},
        rowid).

(** UPDATE events SET title = ?, description = ?, event_date = ?,
    location = ?, max_attendees = ?, updated_at = CURRENT_TIMESTAMP
    WHERE id = ? *)
Definition rewrite_event (row_title : string)
    (row_description : option string) (event_date : option Z)
    (row_location : string) (max_attendees : option Z) (e : Event) : Event :=
  {| e_id := e_id e; e_title := row_title; e_description := row_description;
     e_event_date := event_date; e_location := row_location;
     e_max_attendees := max_attendees; e_created_by := e_created_by e;
     e_status := e_status e |}.

Definition update_event (fault : bool) (c : Catalog) (id : Z)
    (row_title : string) (row_description : option string)
    (event_date : option Z) (row_location : string)
    (max_attendees : option Z) : Result Catalog :=
  if fault then Err
  else
    let d := store c in
    Ok {| store :=
            set_events d
              (map (fun e => if has_id id e
                             then rewrite_event row_title row_description
                                    event_date row_location max_attendees e
                             else e) (events d));
          events_seq := events_seq c |}.

(** DELETE FROM events WHERE id = ?
    [foreign_keys] is the PRAGMA of the connection, which [getDb] leaves
    at the default of the SQLite build; when it is on, ON DELETE CASCADE
    removes the RSVPs of the event. *)
Definition delete_event (fault foreign_keys : bool) (c : Catalog) (id : Z)
    : Result Catalog :=
  if fault then Err
  else
    let d := store c in
    let kept := filter (fun e => negb (has_id id e)) (events d) in
    let left :=
      if foreign_keys
      then filter (fun r => negb (Reads.of_event id r)) (rsvps d)
      else rsvps d in
    Ok {| store := {| users := users d; events := kept; rsvps := left;
                      users_seq := users_seq d; rsvps_seq := rsvps_seq d |};
          events_seq := events_seq c |}.

(** [event.created_by !== userId && userRole !== 'admin'] *)
Definition access_denied (e : Event) (u : SessionUser) : bool :=
  negb (e_created_by e =? su_id u)%Z && negb (su_role u =? "admin")%string.

Section Handlers.

(** [isISO8601] of express-validator, and the time value of
    [new Date(value)], [None] for NaN. *)
Variable isISO8601 : string -> bool.
Variable date_value : string -> option Z.

(** [validateEvent]; [now] is [new Date()] in the custom check. *)
Definition validateEvent (now : Z) (b : EventBody) : list string :=
  (if (3 <=? String.length (title b))%nat then []
   else ["Title must be at least 3 characters long"])
  ++ (match description b with
      | Some s => if (String.length s <=? 1000)%nat then []
                  else ["Description cannot exceed 1000 characters"]
      | None => []
      end)
  ++ (if isISO8601 (eventDate b) then []
      else ["Event date must be a valid date"])
  ++ (if Rsvps.not_in_future (date_value (eventDate b)) now
      then ["Event date must be in the future"] else [])
  ++ (if (1 <=? String.length (location b))%nat then []
      else ["Location is required"])
  ++ (match maxAttendees b with
      | None => []
      | Some (Some n) => if (1 <=? n)%Z then []
                         else ["Max attendees must be a positive number"]
      | Some None => ["Max attendees must be a positive number"]
      end).

(** [router.post('/', authMiddleware, validateEvent, ...)] *)
Definition post_event (f : EventFaults) (now : Z) (s : Session)
    (b : EventBody) (c : Catalog) : EventOutcome :=
  match authMiddleware s with
  | inl r => reply_with (Plain r) c
  | inr user =>
      match validateEvent now b with
      | _ :: _ as details =>
          reply_with (Plain (Reply 400 (JValidation details))) c
      | [] =>
          match insert_event (ef_write f) c (title b) (description b)
                  (date_value (eventDate b)) (location b)
                  (max_or_null (maxAttendees b)) (su_id user) with
          | Err =>
              reply_with (Plain (Reply 500 (JError "Failed to create event")))
                c
          | Ok (c', lastID) =>
              match db_call (ef_fetch f)
                      (select_event_details (store c') lastID) with
              | Err =>
                  reply_with
                    (Plain (Reply 500
                              (JError "Event created but fetch failed"))) c'
              | Ok event =>
                  reply_with
                    (WithEvent 201 "Event created successfully" event) c'
              end
          end
      end
  end.

(** [router.put('/:id', authMiddleware, validateEvent, ...)] *)
Definition put_event (f : EventFaults) (now : Z) (s : Session) (id : Z)
    (b : EventBody) (c : Catalog) : EventOutcome :=
  match authMiddleware s with
  | inl r => reply_with (Plain r) c
  | inr user =>
      match validateEvent now b with
      | _ :: _ as details =>
          reply_with (Plain (Reply 400 (JValidation details))) c
      | [] =>
          match db_call (ef_owner f) (select_event (store c) id) with
          | Err => reply_with (Plain (Reply 500 (JError "Database error"))) c
          | Ok None =>
              reply_with (Plain (Reply 404 (JError "Event not found"))) c
          | Ok (Some event) =>
              if access_denied event user
              then reply_with
                     (Plain (Reply 403
                        (JError
                           "Access denied. You can only edit your own events.")))
                     c
              else
                match update_event (ef_write f) c id (title b)
                        (description b) (date_value (eventDate b))
                        (location b) (max_or_null (maxAttendees b)) with
                | Err =>
                    reply_with
                      (Plain (Reply 500 (JError "Failed to update event"))) c
                | Ok c' =>
                    match db_call (ef_fetch f)
                            (select_event_details (store c') id) with
                    | Err =>
                        reply_with
                          (Plain (Reply 500
                             (JError "Event updated but fetch failed"))) c'
                    | Ok updatedEvent =>
                        reply_with
                          (WithEvent 200 "Event updated successfully"
                             updatedEvent) c'
                    end
                end
          end
      end
  end.

End Handlers.

(** [router.delete('/:id', authMiddleware, ...)] *)
Definition delete_event_route (f : EventFaults) (foreign_keys : bool)
    (s : Session) (id : Z) (c : Catalog) : EventOutcome :=
  match authMiddleware s with
  | inl r => reply_with (Plain r) c
  | inr user =>
      match db_call (ef_owner f) (select_event (store c) id) with
      | Err => reply_with (Plain (Reply 500 (JError "Database error"))) c
      | Ok None => reply_with (Plain (Reply 404 (JError "Event not found"))) c
      | Ok (Some event) =>
          if access_denied event user
          then reply_with
                 (Plain (Reply 403
                    (JError
                       "Access denied. You can only delete your own events.")))
                 c
          else
            match delete_event (ef_write f) foreign_keys c id with
            | Err =>
                reply_with
                  (Plain (Reply 500 (JError "Failed to delete event"))) c
            | Ok c' =>
                reply_with
                  (Plain (Reply 200 (JMessage "Event deleted successfully")))
                  c'
            end
      end
  end.

(** [router.get('/:id', ...)]: the event with its attending count, then
    its RSVPs. *)
Definition get_event (fail_page fail_rsvps : bool) (id : Z) (d : Db)
    : EventReply :=
  match db_call fail_page (select_event_page d id) with
  | Err => Plain (Reply 500 (JError "Database error"))
  | Ok None => Plain (Reply 404 (JError "Event not found"))
  | Ok (Some event) =>
      match db_call fail_rsvps (Reads.select_event_rsvps d id) with
      | Err => Plain (Reply 500 (JError "Database error"))
      | Ok rsvps => Page event rsvps
      end
  end.

(** The constraints that the event routes keep: the primary key, and a
    capacity that is NULL or at least 1. *)
Definition event_ids_unique (d : Db) : Prop := NoDup (map e_id (events d)).

Definition capacities_ok (d : Db) : Prop :=
  forall e, In e (events d) ->
    match e_max_attendees e with
    | Some n => 1 <= n
    | None => True
    end.

End Events.

(** ** More data for concrete runs *)

Module MoreExamples.
Import Store Http.

(** Stand-ins for [isISO8601] and for the parsing of [new Date]. *)
Definition toy_iso (s : string) : bool := (s =? "2030-01-01T00:00:00Z")%string.

Definition toy_date (s : string) : option Z :=
  if (s =? "2030-01-01T00:00:00Z")%string then Some 2000 else None.

Definition catalog0 : Events.Catalog :=
  {| Events.store := Examples.db1; Events.events_seq := 5 |}.

Definition party : Events.EventBody :=
  {| Events.title := "Party"; Events.description := None;
     Events.eventDate := "2030-01-01T00:00:00Z"; Events.location := "Roof";
     Events.maxAttendees := Some (Some 2) |}.

Definition bob_row : User :=
  {| u_id := 3; u_username := "bob"; u_email := "bob@example.com";
     u_password_hash := "hash-of-bob"; u_role := "user";
     u_first_name := "Bob"; u_last_name := "B" |}.


Definition carol_signup : Auth.RegisterBody :=
  {| Auth.reg_username := "carol"; Auth.reg_email := "carol@example.com";
     Auth.reg_password := "secret2"; Auth.reg_firstName := "Carol";
     Auth.reg_lastName := "C" |}.

Definition carol_login : Auth.LoginBody :=
  {| Auth.login_username := "carol"; Auth.login_password := "secret2" |}.

Definition alice_login : Auth.LoginBody :=
  {| Auth.login_username := "alice"; Auth.login_password := "alice" |}.

(** An RSVP for the event that POST /events creates in [catalog0]. *)
Definition to_party : Rsvps.RsvpBody :=
  {| Rsvps.eventId := Some 6; Rsvps.status := "attending";
     Rsvps.notes := None |}.

End MoreExamples.

(** ** Facts about the statements *)

Module StoreFacts.
Import Store.

Lemma count_attending_eq d eid :
  count_attending d eid = Z.of_nat (attending_in eid (rsvps d)).
Proof. reflexivity. Qed.

Lemma rsvp_for_key u e r : rsvp_for u e r = true <-> rsvp_key r = (u, e).
Proof.
  unfold rsvp_for, rsvp_key. rewrite andb_true_iff, !Z.eqb_eq.
  split; [intros [-> ->]; reflexivity | intros H; inversion H; auto].
Qed.

Lemma no_row_not_in u e l :
  existsb (rsvp_for u e) l = false <-> ~ In (u, e) (map rsvp_key l).
Proof.
  induction l as [|r l IH]; simpl.
  - tauto.
  - rewrite orb_false_iff, IH. split.
    + intros [Hr Hl] [Hk | Hin]; [| tauto].
      apply rsvp_for_key in Hk. congruence.
    + intros H. split; [| tauto].
      destruct (rsvp_for u e r) eqn:Hr; [| reflexivity].
      apply rsvp_for_key in Hr. tauto.
Qed.

Lemma find_none_existsb {A} (p : A -> bool) l :
  find p l = None <-> existsb p l = false.
Proof.
  induction l as [|a l IH]; simpl; [tauto |].
  destruct (p a); simpl; [split; discriminate | exact IH].
Qed.


Lemma filter_none {A} (p : A -> bool) l :
  existsb p l = false -> filter p l = [].
Proof.
  induction l as [|a l IH]; simpl; [reflexivity |].
  destruct (p a); simpl; [discriminate | exact IH].
Qed.

Lemma filter_negb_none {A} (p : A -> bool) l :
  existsb p l = false -> filter (fun a => negb (p a)) l = l.
Proof.
  induction l as [|a l IH]; simpl; [reflexivity |].
  destruct (p a); simpl; [discriminate |].
  intros H. now rewrite IH.
Qed.

(** *** UPDATE *)

Lemma update_rows_keys u e s n ts l :
  map rsvp_key (update_rows u e s n ts l) = map rsvp_key l.
Proof.
  unfold update_rows. rewrite map_map. apply map_ext.
  intros r. destruct (rsvp_for u e r); reflexivity.
Qed.

Lemma update_rows_none u e s n ts l :
  existsb (rsvp_for u e) l = false -> update_rows u e s n ts l = l.
Proof.
  induction l as [|r l IH]; simpl; [reflexivity |].
  destruct (rsvp_for u e r); simpl; [discriminate |].
  intros H. now rewrite (IH H).
Qed.

Lemma set_response_for u e s n ts r :
  rsvp_for u e (set_response s n ts r) = rsvp_for u e r.
Proof. reflexivity. Qed.

(** Under UNIQUE(user_id, event_id) the statement rewrites one row. *)
Lemma unique_filter_one u e l r0 :
  NoDup (map rsvp_key l) -> find (rsvp_for u e) l = Some r0 ->
  filter (rsvp_for u e) l = [r0].
Proof.
  induction l as [|r l IH]; simpl; [discriminate |].
  intros Hnd Hf. inversion Hnd as [|k ks Hnotin Hnd']; subst.
  destruct (rsvp_for u e r) eqn:Hr.
  - inversion Hf; subst. f_equal. apply filter_none.
    apply no_row_not_in. apply rsvp_for_key in Hr. now rewrite <- Hr.
  - now apply IH.
Qed.

Lemma update_rows_filter u e s n ts l :
  filter (rsvp_for u e) (update_rows u e s n ts l)
  = map (set_response s n ts) (filter (rsvp_for u e) l).
Proof.
  induction l as [|r l IH]; simpl; [reflexivity |].
  destruct (rsvp_for u e r) eqn:Hr; simpl.
  - rewrite set_response_for, Hr. simpl. now rewrite IH.
  - now rewrite Hr.
Qed.


Lemma update_rows_other_event u e s n ts e' l :
  e' <> e ->
  attending_in e' (update_rows u e s n ts l) = attending_in e' l.
Proof.
  intros Hne. unfold attending_in.
  induction l as [|r l IH]; simpl; [reflexivity |].
  destruct (rsvp_for u e r) eqn:Hr.
  - assert (Hev : r_event_id r = e).
    { apply rsvp_for_key in Hr. inversion Hr; reflexivity. }
    assert (Hne' : (e =? e')%Z = false) by (apply Z.eqb_neq; congruence).
    assert (H1 : is_attending e' (set_response s n ts r) = false).
    { unfold is_attending. simpl. now rewrite Hev, Hne'. }
    assert (H2 : is_attending e' r = false).
    { unfold is_attending. now rewrite Hev, Hne'. }
    rewrite H1, H2. exact IH.
  - destruct (is_attending e' r); simpl; now rewrite IH.
Qed.

Lemma update_rows_count u e s n ts l r0 :
  NoDup (map rsvp_key l) -> find (rsvp_for u e) l = Some r0 ->
  (attending_in e (update_rows u e s n ts l)
   + b2n (r_status r0 =? "attending")%string
   = attending_in e l + b2n (s =? "attending")%string)%nat.
Proof.
  unfold attending_in.
  induction l as [|r l IH]; simpl; [discriminate |].
  intros Hnd Hf. inversion Hnd as [|k ks Hnotin Hnd']; subst.
  destruct (rsvp_for u e r) eqn:Hr.
  - inversion Hf; subst r0.
    assert (Hev : r_event_id r = e).
    { apply rsvp_for_key in Hr. inversion Hr; reflexivity. }
    rewrite update_rows_none.
    2:{ apply no_row_not_in. apply rsvp_for_key in Hr. now rewrite <- Hr. }
    assert (H1 : is_attending e (set_response s n ts r)
                 = (s =? "attending")%string).
    { unfold is_attending. simpl. now rewrite Hev, Z.eqb_refl. }
    assert (H2 : is_attending e r = (r_status r =? "attending")%string).
    { unfold is_attending. now rewrite Hev, Z.eqb_refl. }
    rewrite H1, H2.
    destruct (s =? "attending")%string,
             (r_status r =? "attending")%string; simpl; lia.
  - specialize (IH Hnd' Hf).
    destruct (is_attending e r); simpl; lia.
Qed.

(** *** INSERT *)

Lemma insert_count e e' l row :
  r_event_id row = e ->
  attending_in e' (l ++ [row])
  = (attending_in e' l
     + b2n ((e =? e')%Z && (r_status row =? "attending")%string))%nat.
Proof.
  intros He. unfold attending_in. rewrite filter_app, length_app. simpl.
  unfold is_attending. rewrite He.
  destruct ((e =? e')%Z && (r_status row =? "attending")%string);
    reflexivity.
Qed.

Lemma insert_unique u e l row :
  NoDup (map rsvp_key l) -> existsb (rsvp_for u e) l = false ->
  rsvp_key row = (u, e) -> NoDup (map rsvp_key (l ++ [row])).
Proof.
  intros Hnd Hno Hk. rewrite map_app. simpl.
  apply NoDup_app; [exact Hnd | repeat constructor; simpl; tauto |].
  intros k Hin [Heq | []]. subst k. rewrite Hk in Hin.
  now apply no_row_not_in in Hno.
Qed.


Lemma filter_app_none {A} (p : A -> bool) l a :
  existsb p l = false -> p a = true -> filter p (l ++ [a]) = [a].
Proof.
  intros Hno Ha. rewrite filter_app, (filter_none _ _ Hno). simpl.
  now rewrite Ha.
Qed.

End StoreFacts.

(** ** Facts about POST /rsvps *)

Module RsvpFacts.
Import Store Http Rsvps StoreFacts.

Lemma set_rsvps_same d : set_rsvps d (rsvps d) (rsvps_seq d) = d.
Proof. destruct d; reflexivity. Qed.

Lemma validateRSVP_ok b :
  validateRSVP b = [] ->
  (exists eid, eventId b = Some eid /\ 1 <= eid)
  /\ check_rsvp_status (status b) = true.
Proof.
  unfold validateRSVP. intros H.
  apply app_eq_nil in H as [H1 H2]. apply app_eq_nil in H2 as [H2 _].
  split.
  - destruct (eventId b) as [n|]; [| discriminate].
    destruct (1 <=? n)%Z eqn:Hn; [| discriminate].
    exists n. split; [reflexivity | now apply Z.leb_le].
  - destruct (check_rsvp_status (status b)); [reflexivity | discriminate].
Qed.

Lemma upsertRSVP_effect f c u e b d :
  upsert_effect f c u e b d (upsertRSVP f c u e b d).
Proof.
  unfold upsertRSVP, db_call.
  destruct (fail_existing f).
  { apply effect_none; [reflexivity | discriminate]. }
  destruct (select_rsvp d u e) as [r0|] eqn:Hsel.
  - unfold update_rsvp. destruct (fail_write f).
    { apply effect_none; [reflexivity | discriminate]. }
    destruct (negb (check_rsvp_status (status b)) && _).
    { apply effect_none; [reflexivity | discriminate]. }
    unfold getRSVPDetails, db_call.
    replace (match (if fail_details f then Err else Ok _) with
             | Err => _ | Ok rsvp => _ end)
      with (respond (saved_reply f u e (db_updated c u e b d))
              (db_updated c u e b d)
              [Updated u e (List.length (filter (rsvp_for u e) (rsvps d)))]).
    + now apply effect_update with r0.
    + unfold saved_reply, db_updated. destruct (fail_details f); reflexivity.
  - unfold insert_rsvp. destruct (fail_write f).
    { apply effect_none; [reflexivity | discriminate]. }
    destruct (check_rsvp_status (status b)) eqn:Hck; simpl.
    2:{ apply effect_none; [reflexivity | discriminate]. }
    assert (Hu : unique_rsvp_ok (rsvps d) u e = true).
    { unfold unique_rsvp_ok. apply find_none_existsb in Hsel.
      unfold select_rsvp in Hsel. now rewrite Hsel. }
    rewrite Hu. simpl.
    unfold getRSVPDetails, db_call.
    replace (match (if fail_details f then Err else Ok _) with
             | Err => _ | Ok rsvp => _ end)
      with (respond (saved_reply f u e (db_inserted c u e b d))
              (db_inserted c u e b d) [Inserted (new_row c u e b d)]).
    + now apply effect_insert.
    + unfold saved_reply, db_inserted, new_row.
      destruct (fail_details f); reflexivity.
Qed.

Lemma post_rsvp_passes f c s b d u eid ev :
  passes_checks f c s b d u eid ev ->
  post_rsvp f c s b d = upsertRSVP f c (su_id u) eid b d.
Proof.
  intros (Ha & Hv & He & Hf & Hsel & Hdate & Hcap).
  unfold post_rsvp, checked_rsvp, db_call.
  rewrite Ha, Hv, He, Hf, Hsel, Hdate.
  destruct ((status b =? "attending")%string
            && declares_capacity (e_max_attendees ev)); [| reflexivity].
  destruct (Hcap eq_refl) as [-> ->]. reflexivity.
Qed.

Ltac turned_away :=
  left; eexists; split; [reflexivity | split; [reflexivity | discriminate]].

(** Every request is either turned away with the store untouched or
    reaches [upsertRSVP]. *)
Lemma post_rsvp_effect f c s b d :
  (exists r, post_rsvp f c s b d = respond r d []
             /\ is_success r = false
             /\ r <> Reply 500 (JError "RSVP saved but fetch failed"))
  \/ (exists u eid ev, passes_checks f c s b d u eid ev).
Proof.
  unfold post_rsvp.
  destruct (authMiddleware s) as [r | u] eqn:Ha.
  { left. exists r. split; [reflexivity |].
    unfold authMiddleware in Ha. destruct s as [su|].
    - destruct (_ || _); inversion Ha; split; [reflexivity | discriminate].
    - inversion Ha; split; [reflexivity | discriminate]. }
  destruct (validateRSVP b) as [|m ms] eqn:Hv.
  2:{ destruct (eventId b); turned_away. }
  destruct (eventId b) as [eid|] eqn:He.
  2:{ turned_away. }
  unfold checked_rsvp, db_call.
  destruct (fail_event f) eqn:Hf.
  { turned_away. }
  destruct (select_active_event d eid) as [ev|] eqn:Hsel.
  2:{ turned_away. }
  destruct (not_in_future (e_event_date ev) (date_now c)) eqn:Hdate.
  { turned_away. }
  destruct ((status b =? "attending")%string
            && declares_capacity (e_max_attendees ev)) eqn:Hgate.
  - destruct (fail_count f) eqn:Hfc.
    { turned_away. }
    destruct (at_capacity (count_attending d eid) (e_max_attendees ev))
      eqn:Hcap.
    { turned_away. }
    right. exists u, eid, ev. unfold passes_checks.
    rewrite Hgate. repeat split; auto.
  - right. exists u, eid, ev. unfold passes_checks.
    rewrite Hgate. repeat split; auto; discriminate.
Qed.

Lemma saved_reply_success f u e d :
  is_success (saved_reply f u e d) = negb (fail_details f).
Proof. unfold saved_reply. destruct (fail_details f); reflexivity. Qed.

(** *** Uniqueness of (user, event) is kept *)

Lemma db_updated_unique c u e b d :
  rsvps_unique d -> rsvps_unique (db_updated c u e b d).
Proof.
  unfold rsvps_unique, db_updated. simpl. now rewrite update_rows_keys.
Qed.

Lemma db_inserted_unique c u e b d :
  rsvps_unique d -> select_rsvp d u e = None ->
  rsvps_unique (db_inserted c u e b d).
Proof.
  unfold rsvps_unique, db_inserted, select_rsvp. simpl. intros Hnd Hsel.
  apply insert_unique with u e; auto.
  now apply find_none_existsb.
Qed.

Lemma upsert_effect_unique f c u e b d o :
  upsert_effect f c u e b d o -> rsvps_unique d -> rsvps_unique (db_after o).
Proof.
  intros [r ? ? | r0 Hsel | Hsel Hck] Hnd; simpl.
  - exact Hnd.
  - now apply db_updated_unique.
  - now apply db_inserted_unique.
Qed.

Lemma upsert_effect_frame f c u e b d o :
  upsert_effect f c u e b d o ->
  users (db_after o) = users d /\ events (db_after o) = events d.
Proof. intros [r ? ? | r0 Hsel | Hsel Hck]; simpl; auto. Qed.

(** *** The attending count after an upsert *)

Lemma upsert_effect_count_other f c u e b d o e' :
  upsert_effect f c u e b d o -> e' <> e ->
  count_attending (db_after o) e' = count_attending d e'.
Proof.
  intros [r ? ? | r0 Hsel | Hsel Hck] Hne; simpl; [reflexivity | |];
    rewrite !count_attending_eq; f_equal; simpl.
  - now apply update_rows_other_event.
  - rewrite (insert_count e e') by reflexivity.
    replace (e =? e')%Z with false by (symmetry; apply Z.eqb_neq; congruence).
    simpl. lia.
Qed.

Lemma upsert_effect_count_le f c u e b d o :
  upsert_effect f c u e b d o -> rsvps_unique d ->
  count_attending (db_after o) e
  <= count_attending d e + Z.of_nat (b2n (status b =? "attending")%string).
Proof.
  intros [r ? ? | r0 Hsel | Hsel Hck] Hnd; simpl;
    rewrite !count_attending_eq; simpl.
  - lia.
  - pose proof (update_rows_count u e (status b) (notes_or_null (notes b))
                  (current_timestamp c) (rsvps d) r0 Hnd Hsel). lia.
  - rewrite (insert_count e e) by reflexivity. rewrite Z.eqb_refl. simpl.
    lia.
Qed.

(** *** The capacity invariant *)

Lemma nodup_map_inj {A B} (g : A -> B) l a a' :
  NoDup (map g l) -> In a l -> In a' l -> g a = g a' -> a = a'.
Proof.
  induction l as [|x l IH]; simpl; [tauto |].
  intros Hnd Ha Ha' Hg. inversion Hnd as [|k ks Hnotin Hnd']; subst.
  destruct Ha as [-> | Ha], Ha' as [-> | Ha']; auto.
  - exfalso. apply Hnotin. rewrite Hg. now apply in_map.
  - exfalso. apply Hnotin. rewrite <- Hg. now apply in_map.
Qed.

Lemma select_active_event_is d ev ev' :
  NoDup (map e_id (events d)) -> In ev (events d) ->
  select_active_event d (e_id ev) = Some ev' -> ev' = ev.
Proof.
  intros Hnd Hin Hsel. apply find_some in Hsel as [Hin' Hact].
  unfold is_active_event in Hact. apply andb_true_iff in Hact as [Hid _].
  apply Z.eqb_eq in Hid. now apply (nodup_map_inj e_id (events d)).
Qed.

(** One request keeps the attending count of a capped event under the
    cap, whatever the request and whatever the driver reports. *)
Lemma post_rsvp_keeps_capacity f c s b d ev cap :
  rsvps_unique d -> NoDup (map e_id (events d)) -> In ev (events d) ->
  e_max_attendees ev = Some cap -> declares_capacity (Some cap) = true ->
  count_attending d (e_id ev) <= cap ->
  let d' := db_after (post_rsvp f c s b d) in
  rsvps_unique d' /\ events d' = events d
  /\ count_attending d' (e_id ev) <= cap.
Proof.
  intros Hu Hpk Hin Hmax Hdecl Hcount.
  destruct (post_rsvp_effect f c s b d)
    as [(r & -> & _ & _) | (u & eid & ev' & Hp)]; simpl.
  { auto. }
  rewrite (post_rsvp_passes _ _ _ _ _ _ _ _ Hp).
  pose proof (upsertRSVP_effect f c (su_id u) eid b d) as Heff.
  split; [now apply (upsert_effect_unique _ _ _ _ _ _ _ Heff) |].
  split; [now apply (upsert_effect_frame _ _ _ _ _ _ _ Heff) |].
  destruct (Z.eq_dec (e_id ev) eid) as [<- | Hne].
  - destruct Hp as (_ & _ & _ & _ & Hsel & _ & Hcap).
    apply (select_active_event_is d ev ev' Hpk Hin) in Hsel. subst ev'.
    pose proof (upsert_effect_count_le _ _ _ _ _ _ _ Heff Hu) as Hle.
    rewrite Hmax in Hcap.
    destruct (status b =? "attending")%string; simpl in *.
    + rewrite Hdecl in Hcap. destruct (Hcap eq_refl) as [_ Hlt].
      apply Z.leb_gt in Hlt. lia.
    + lia.
  - now rewrite (upsert_effect_count_other _ _ _ _ _ _ _ (e_id ev) Heff).
Qed.

Lemma serve_keeps_capacity reqs : forall d ev cap,
  rsvps_unique d -> NoDup (map e_id (events d)) -> In ev (events d) ->
  e_max_attendees ev = Some cap -> declares_capacity (Some cap) = true ->
  count_attending d (e_id ev) <= cap ->
  count_attending (serve reqs d) (e_id ev) <= cap.
Proof.
  induction reqs as [|rq reqs IH]; intros d ev cap Hu Hpk Hin Hmax Hd Hc.
  - exact Hc.
  - simpl.
    destruct (post_rsvp_keeps_capacity (rq_faults rq) (rq_clock rq)
                (rq_session rq) (rq_body rq) d ev cap Hu Hpk Hin Hmax Hd Hc)
      as (Hu' & Hev & Hc').
    apply IH; unfold handle; auto; rewrite Hev; auto.
Qed.

(** C1.  For an event that declares a capacity [cap], in a store that
    keeps the schema's keys and holds at most [cap] attending RSVPs for
    the event, serving any sequence of well-formed 'attending' requests
    one after the other leaves at most [cap] attending RSVPs for it. *)
Theorem capacity_never_exceeded (d : Db) (ev : Event) (cap : Z)
    (reqs : list Request) :
  rsvps_unique d -> NoDup (map e_id (events d)) ->
  In ev (events d) -> e_max_attendees ev = Some cap ->
  declares_capacity (Some cap) = true ->
  count_attending d (e_id ev) <= cap ->
  Forall (fun rq => validateRSVP (rq_body rq) = []
                    /\ status (rq_body rq) = "attending") reqs ->
  count_attending (serve reqs d) (e_id ev) <= cap.
Proof.
  intros Hu Hpk Hin Hmax Hd Hc _. now apply serve_keeps_capacity.
Qed.

Lemma capacity_never_exceeded_witness :
  count_attending
    (serve [Examples.request 10 Examples.alice Examples.going;
            Examples.request 11 Examples.bob Examples.going] Examples.db0)
    1 <= 1.
Proof.
  apply (capacity_never_exceeded Examples.db0 Examples.dinner 1).
  - constructor.
  - repeat constructor; simpl; intuition discriminate.
  - simpl. auto.
  - reflexivity.
  - reflexivity.
  - vm_compute. discriminate.
  - repeat constructor.
Defined.

(** *** C3, C4, C10: the checks before the upsert *)

(** C3.  A request for an active event whose scheduled time is not
    strictly after the clock reading gets the past-event failure, whatever
    the event's capacity, the requested status and the stored RSVPs; the
    store is left as it was and nothing is written. *)
Theorem past_event_rejected (f : StoreFaults) (c : Clock) (s : Session)
    (b : RsvpBody) (d : Db) (u : SessionUser) (eid t : Z) (ev : Event) :
  authMiddleware s = inr u -> validateRSVP b = [] -> eventId b = Some eid ->
  fail_event f = false -> select_active_event d eid = Some ev ->
  e_event_date ev = Some t -> t <= date_now c ->
  post_rsvp f c s b d
  = respond (Reply 400 (JError "Cannot RSVP to past events")) d [].
Proof.
  intros Ha Hv He Hf Hsel Hdate Hle.
  unfold post_rsvp, checked_rsvp, db_call.
  rewrite Ha, Hv, He, Hf, Hsel, Hdate. simpl.
  apply Z.leb_le in Hle. now rewrite Hle.
Qed.

Lemma past_event_rejected_witness :
  post_rsvp no_faults (Examples.at_time 1500) (Some Examples.alice)
    Examples.going Examples.db0
  = respond (Reply 400 (JError "Cannot RSVP to past events")) Examples.db0 [].
Proof.
  apply (past_event_rejected _ _ _ _ _ Examples.alice 1 1000 Examples.dinner);
    [reflexivity .. | simpl; lia].
Defined.

Lemma select_active_event_none d eid :
  (forall ev, In ev (events d) -> e_id ev = eid -> e_status ev <> "active") ->
  select_active_event d eid = None.
Proof.
  intros H. unfold select_active_event.
  destruct (find (is_active_event eid) (events d)) as [ev|] eqn:Hf;
    [| reflexivity].
  apply find_some in Hf as [Hin Hact]. unfold is_active_event in Hact.
  apply andb_true_iff in Hact as [Hid Hst].
  apply Z.eqb_eq in Hid. apply String.eqb_eq in Hst.
  exfalso. exact (H ev Hin Hid Hst).
Qed.

(** C4.  When no event has the given reference, or the event that has it
    is not 'active', the request gets the not-found/inactive failure and
    the store is left as it was; dates and capacities are not looked at. *)
Theorem missing_or_inactive_event_rejected (f : StoreFaults) (c : Clock)
    (s : Session) (b : RsvpBody) (d : Db) (u : SessionUser) (eid : Z) :
  authMiddleware s = inr u -> validateRSVP b = [] -> eventId b = Some eid ->
  fail_event f = false ->
  (forall ev, In ev (events d) -> e_id ev = eid -> e_status ev <> "active") ->
  post_rsvp f c s b d
  = respond (Reply 404 (JError "Event not found or inactive")) d [].
Proof.
  intros Ha Hv He Hf Hnone.
  unfold post_rsvp, checked_rsvp, db_call.
  now rewrite Ha, Hv, He, Hf, (select_active_event_none d eid Hnone).
Qed.

Lemma missing_or_inactive_event_rejected_witness :
  post_rsvp no_faults (Examples.at_time 2000) (Some Examples.alice)
    Examples.to_picnic Examples.db0
  = respond (Reply 404 (JError "Event not found or inactive")) Examples.db0 [].
Proof.
  apply (missing_or_inactive_event_rejected _ _ _ _ _ Examples.alice 5);
    try reflexivity.
  intros ev [<- | [<- | []]]; simpl; intros; discriminate.
Defined.

(** C10.  At an event whose attending count has reached its capacity, a
    user whose stored RSVP is already 'attending' and who sends
    'attending' again gets the capacity failure: the row of the user is
    one of the rows counted, and the store is left as it was. *)
Theorem resubmit_at_capacity_rejected (f : StoreFaults) (c : Clock)
    (s : Session) (b : RsvpBody) (d : Db) (u : SessionUser) (eid cap : Z)
    (ev : Event) (r0 : Rsvp) :
  authMiddleware s = inr u -> validateRSVP b = [] -> eventId b = Some eid ->
  status b = "attending" ->
  fail_event f = false -> fail_count f = false ->
  select_active_event d eid = Some ev ->
  not_in_future (e_event_date ev) (date_now c) = false ->
  e_max_attendees ev = Some cap -> declares_capacity (Some cap) = true ->
  count_attending d eid = cap ->
  select_rsvp d (su_id u) eid = Some r0 -> r_status r0 = "attending" ->
  In r0 (filter (is_attending eid) (rsvps d))
  /\ post_rsvp f c s b d
     = respond (Reply 400 (JError "Event is at full capacity")) d [].
Proof.
  intros Ha Hv He Hst Hf Hfc Hsel Hdate Hmax Hdecl Hcount Hrow Hr0.
  split.
  - apply find_some in Hrow as [Hin Hfor]. apply filter_In.
    split; [exact Hin |].
    apply rsvp_for_key in Hfor. inversion Hfor.
    unfold is_attending. now rewrite Hr0, !Z.eqb_refl.
  - unfold post_rsvp, checked_rsvp, db_call.
    rewrite Ha, Hv, He, Hf, Hsel, Hdate, Hst, Hmax, Hdecl, Hfc, Hcount.
    simpl. now rewrite Z.leb_refl.
Qed.

Lemma resubmit_at_capacity_rejected_witness :
  In (new_row (Examples.at_time 10) 2 1 Examples.going Examples.db0)
     (filter (is_attending 1) (rsvps Examples.db1))
  /\ post_rsvp no_faults (Examples.at_time 11) (Some Examples.alice)
       Examples.going Examples.db1
     = respond (Reply 400 (JError "Event is at full capacity"))
         Examples.db1 [].
Proof.
  apply (resubmit_at_capacity_rejected _ _ _ _ _ Examples.alice 1 1
           Examples.dinner); reflexivity.
Defined.

(** *** C5: DELETE /rsvps/:eventId *)

Lemma filter_split_length {A} (p : A -> bool) l :
  (List.length (filter p l) + List.length (filter (fun a => negb (p a)) l)
   = List.length l)%nat.
Proof.
  induction l as [|a l IH]; simpl; [reflexivity |].
  destruct (p a); simpl; lia.
Qed.

Lemma find_negb_filter {A} (p : A -> bool) l :
  find p (filter (fun a => negb (p a)) l) = None.
Proof.
  induction l as [|a l IH]; simpl; [reflexivity |].
  destruct (p a) eqn:Hp; simpl; [exact IH | now rewrite Hp].
Qed.

(** C5.  With the row of (identity, event) in the table, the deletion
    removes that row, keeps every other row and replies with success;
    without it the reply is the not-found failure and the store is left
    as it was. *)
Theorem delete_removes_or_not_found (s : Session) (u : SessionUser)
    (eid : Z) (d : Db) :
  authMiddleware s = inr u -> rsvps_unique d ->
  let o := delete_rsvp_route false s eid d in
  match select_rsvp d (su_id u) eid with
  | Some r =>
      reply o = Reply 200 (JMessage "RSVP deleted successfully")
      /\ select_rsvp (db_after o) (su_id u) eid = None
      /\ rsvps (db_after o)
         = filter (fun r' => negb (rsvp_for (su_id u) eid r')) (rsvps d)
      /\ (List.length (rsvps (db_after o)) + 1 = List.length (rsvps d))%nat
      /\ writes o = [Deleted (su_id u) eid 1]
  | None =>
      reply o = Reply 404 (JError "RSVP not found")
      /\ is_success (reply o) = false
      /\ db_after o = d /\ writes o = []
  end.
Proof.
  intros Ha Hu. unfold delete_rsvp_route, delete_rsvp. rewrite Ha. simpl.
  pose proof (filter_split_length (rsvp_for (su_id u) eid) (rsvps d)) as Hlen.
  destruct (select_rsvp d (su_id u) eid) as [r|] eqn:Hsel.
  - unfold select_rsvp in Hsel.
    rewrite (unique_filter_one _ _ _ _ Hu Hsel) in Hlen. simpl in Hlen.
    replace (List.length (rsvps d)
             - List.length
                 (filter (fun r' => negb (rsvp_for (su_id u) eid r'))
                    (rsvps d)))%nat with 1%nat by lia.
    simpl. repeat split; try lia.
    unfold select_rsvp. simpl. apply find_negb_filter.
  - unfold select_rsvp in Hsel. apply find_none_existsb in Hsel.
    rewrite (filter_negb_none _ _ Hsel), Nat.sub_diag. simpl.
    repeat split. apply set_rsvps_same.
Qed.

Lemma delete_removes_or_not_found_witness :
  let o := delete_rsvp_route false (Some Examples.alice) 1 Examples.db1 in
  match select_rsvp Examples.db1 2 1 with
  | Some r =>
      reply o = Reply 200 (JMessage "RSVP deleted successfully")
      /\ select_rsvp (db_after o) 2 1 = None
      /\ rsvps (db_after o)
         = filter (fun r' => negb (rsvp_for 2 1 r')) (rsvps Examples.db1)
      /\ (List.length (rsvps (db_after o)) + 1
          = List.length (rsvps Examples.db1))%nat
      /\ writes o = [Deleted 2 1 1]
  | None =>
      reply o = Reply 404 (JError "RSVP not found")
      /\ is_success (reply o) = false
      /\ db_after o = Examples.db1 /\ writes o = []
  end.
Proof.
  apply (delete_removes_or_not_found (Some Examples.alice) Examples.alice 1
           Examples.db1).
  - reflexivity.
  - vm_compute. repeat constructor. simpl. tauto.
Defined.

(** *** What a write of [upsertRSVP] leaves in the table *)

Lemma upsert_effect_one_write f c u e b d o :
  upsert_effect f c u e b d o -> rsvps_unique d -> writes o <> [] ->
  one_write d o.
Proof.
  intros [r ? ? | r0 Hsel | Hsel Hck] Hu Hw; simpl in *.
  - congruence.
  - right. exists u, e, (status b), (notes_or_null (notes b)),
      (current_timestamp c), r0.
    unfold select_rsvp in Hsel.
    rewrite (unique_filter_one _ _ _ _ Hu Hsel). simpl. auto.
  - left. exists (new_row c u e b d). auto.
Qed.

Lemma upsert_effect_row f c u e b d o :
  upsert_effect f c u e b d o -> rsvps_unique d -> writes o <> [] ->
  exists r,
    filter (rsvp_for u e) (rsvps (db_after o)) = [r]
    /\ r_status r = status b /\ r_notes r = notes_or_null (notes b)
    /\ r_rsvp_date r = current_timestamp c
    /\ (forall r0, select_rsvp d u e = Some r0 -> r_id r = r_id r0).
Proof.
  intros [r ? ? | r0 Hsel | Hsel Hck] Hu Hw; simpl in *.
  - congruence.
  - exists (set_response (status b) (notes_or_null (notes b))
              (current_timestamp c) r0).
    unfold select_rsvp in Hsel.
    rewrite update_rows_filter, (unique_filter_one _ _ _ _ Hu Hsel).
    simpl. repeat split. intros r1 H1. unfold select_rsvp in H1. congruence.
  - exists (new_row c u e b d).
    rewrite filter_app_none.
    + repeat split. intros r0 H0. congruence.
    + now apply find_none_existsb.
    + unfold rsvp_for. simpl. now rewrite !Z.eqb_refl.
Qed.

Lemma upsert_effect_count f c u e b d o :
  upsert_effect f c u e b d o -> rsvps_unique d -> writes o <> [] ->
  count_attending (db_after o) e + Z.of_nat (b2n (old_attending d u e))
  = count_attending d e + Z.of_nat (b2n (status b =? "attending")%string).
Proof.
  intros [r ? ? | r0 Hsel | Hsel Hck] Hu Hw; simpl in *.
  - congruence.
  - rewrite !count_attending_eq. unfold old_attending. rewrite Hsel. simpl.
    pose proof (update_rows_count u e (status b) (notes_or_null (notes b))
                  (current_timestamp c) (rsvps d) r0 Hu Hsel). lia.
  - rewrite !count_attending_eq. unfold old_attending. rewrite Hsel. simpl.
    rewrite (insert_count e e) by reflexivity. rewrite Z.eqb_refl. simpl.
    lia.
Qed.


Lemma upsert_effect_success f c u e b d o :
  upsert_effect f c u e b d o -> is_success (reply o) = true ->
  writes o <> [] /\ fail_details f = false.
Proof.
  intros [r Hr ? | r0 Hsel | Hsel Hck]; simpl.
  - congruence.
  - rewrite saved_reply_success. destruct (fail_details f);
      [discriminate | split; [discriminate | reflexivity]].
  - rewrite saved_reply_success. destruct (fail_details f);
      [discriminate | split; [discriminate | reflexivity]].
Qed.

Lemma upsert_effect_fetch_failed f c u e b d o :
  upsert_effect f c u e b d o ->
  reply o = Reply 500 (JError "RSVP saved but fetch failed") ->
  writes o <> [].
Proof.
  intros [r Hr Hne | r0 Hsel | Hsel Hck]; simpl;
    [congruence | discriminate | discriminate].
Qed.

(** With a driver that reports no failure, a request that passes the
    checks is served. *)
Lemma upsertRSVP_runs c u e b d :
  check_rsvp_status (status b) = true ->
  let o := upsertRSVP no_faults c u e b d in
  is_success (reply o) = true /\ writes o <> [].
Proof.
  intros Hck. unfold upsertRSVP, update_rsvp, insert_rsvp, db_call. simpl.
  rewrite Hck. simpl.
  destruct (select_rsvp d u e) eqn:Hsel.
  - simpl. split; [reflexivity | discriminate].
  - assert (Hu : unique_rsvp_ok (rsvps d) u e = true).
    { unfold unique_rsvp_ok. apply find_none_existsb in Hsel.
      unfold select_rsvp in Hsel. now rewrite Hsel. }
    rewrite Hu. simpl. split; [reflexivity | discriminate].
Qed.

(** *** C8: the side effects of one request *)

(** C8, as amended.  A request never touches [users] or [events].  A
    request that succeeds wrote the RSVP table once: one INSERT of one
    row or one UPDATE of one row.  A request that fails left the store as
    it was, except for the failure 'RSVP saved but fetch failed', which is
    sent after the one write took effect. *)
Theorem upsert_side_effects (f : StoreFaults) (c : Clock) (s : Session)
    (b : RsvpBody) (d : Db) :
  rsvps_unique d ->
  let o := post_rsvp f c s b d in
  users (db_after o) = users d /\ events (db_after o) = events d
  /\ (is_success (reply o) = true -> one_write d o)
  /\ (is_success (reply o) = false ->
      reply o <> Reply 500 (JError "RSVP saved but fetch failed") ->
      db_after o = d /\ writes o = [])
  /\ (reply o = Reply 500 (JError "RSVP saved but fetch failed") ->
      one_write d o).
Proof.
  intros Hu.
  destruct (post_rsvp_effect f c s b d)
    as [(r & -> & Hr & Hne) | (u & eid & ev & Hp)]; simpl.
  { repeat split; congruence. }
  rewrite (post_rsvp_passes _ _ _ _ _ _ _ _ Hp).
  pose proof (upsertRSVP_effect f c (su_id u) eid b d) as Heff.
  destruct (upsert_effect_frame _ _ _ _ _ _ _ Heff) as [Hus Hev].
  split; [exact Hus |]. split; [exact Hev |]. split; [| split].
  - intros Hok. apply (upsert_effect_one_write _ _ _ _ _ _ _ Heff Hu).
    now apply (upsert_effect_success _ _ _ _ _ _ _ Heff).
  - intros Hfail Hne.
    destruct Heff as [r Hr Hne' | r0 Hsel | Hsel Hck]; simpl in *; auto;
      exfalso; rewrite saved_reply_success in Hfail;
      unfold saved_reply in Hne; destruct (fail_details f);
      simpl in *; congruence.
  - intros Hrep. apply (upsert_effect_one_write _ _ _ _ _ _ _ Heff Hu).
    now apply (upsert_effect_fetch_failed _ _ _ _ _ _ _ Heff).
Qed.

Lemma upsert_side_effects_witness :
  let o := post_rsvp no_faults (Examples.at_time 10) (Some Examples.alice)
             Examples.going Examples.db0 in
  users (db_after o) = users Examples.db0
  /\ events (db_after o) = events Examples.db0
  /\ (is_success (reply o) = true -> one_write Examples.db0 o)
  /\ (is_success (reply o) = false ->
      reply o <> Reply 500 (JError "RSVP saved but fetch failed") ->
      db_after o = Examples.db0 /\ writes o = [])
  /\ (reply o = Reply 500 (JError "RSVP saved but fetch failed") ->
      one_write Examples.db0 o).
Proof.
  apply (upsert_side_effects no_faults (Examples.at_time 10)
           (Some Examples.alice) Examples.going Examples.db0).
  constructor.
Defined.

(** C8, as stated, fails: the request below is answered with a failure
    after its INSERT took effect. *)
Lemma failed_request_after_write :
  let o := post_rsvp Examples.details_fault (Examples.at_time 10)
             (Some Examples.alice) Examples.going Examples.db0 in
  reply o = Reply 500 (JError "RSVP saved but fetch failed")
  /\ is_success (reply o) = false
  /\ db_after o <> Examples.db0
  /\ rsvps (db_after o)
     = [new_row (Examples.at_time 10) 2 1 Examples.going Examples.db0].
Proof.
  vm_compute. repeat split. discriminate.
Qed.

(** *** A served request, seen from the table *)

Lemma find_of_filter {A} (p : A -> bool) l r rest :
  filter p l = r :: rest -> find p l = Some r.
Proof.
  induction l as [|a l IH]; simpl; [discriminate |].
  destruct (p a); [intros H; inversion H; reflexivity | exact IH].
Qed.

Lemma select_active_event_frame d d' eid :
  events d' = events d ->
  select_active_event d' eid = select_active_event d eid.
Proof. unfold select_active_event. now intros ->. Qed.

Lemma old_attending_counted d u e :
  old_attending d u e = true -> 1 <= count_attending d e.
Proof.
  unfold old_attending, select_rsvp, count_attending.
  destruct (find (rsvp_for u e) (rsvps d)) as [r0|] eqn:Hf; [| discriminate].
  intros Hst. apply find_some in Hf as [Hin Hfor].
  assert (Hin' : In r0 (filter (is_attending e) (rsvps d))).
  { apply filter_In. split; [exact Hin |]. apply rsvp_for_key in Hfor.
    inversion Hfor. unfold is_attending. now rewrite Hst, Z.eqb_refl. }
  destruct (filter (is_attending e) (rsvps d)); [destruct Hin' | simpl; lia].
Qed.

(** With a driver that reports no failure, a request that passes the
    checks succeeds and leaves one row for (user, event). *)
Lemma post_rsvp_served c s b d u eid ev :
  passes_checks no_faults c s b d u eid ev -> rsvps_unique d ->
  let o := post_rsvp no_faults c s b d in
  is_success (reply o) = true
  /\ rsvps_unique (db_after o) /\ events (db_after o) = events d
  /\ count_attending (db_after o) eid
     + Z.of_nat (b2n (old_attending d (su_id u) eid))
     = count_attending d eid + Z.of_nat (b2n (status b =? "attending")%string)
  /\ exists r,
       filter (rsvp_for (su_id u) eid) (rsvps (db_after o)) = [r]
       /\ r_status r = status b /\ r_notes r = notes_or_null (notes b)
       /\ r_rsvp_date r = current_timestamp c
       /\ (forall r0, select_rsvp d (su_id u) eid = Some r0 ->
           r_id r = r_id r0).
Proof.
  intros Hp Hu. simpl. rewrite (post_rsvp_passes _ _ _ _ _ _ _ _ Hp).
  pose proof (upsertRSVP_effect no_faults c (su_id u) eid b d) as Heff.
  destruct Hp as (_ & Hv & _).
  destruct (validateRSVP_ok b Hv) as [_ Hck].
  destruct (upsertRSVP_runs c (su_id u) eid b d Hck) as [Hok Hw].
  split; [exact Hok |].
  split; [now apply (upsert_effect_unique _ _ _ _ _ _ _ Heff) |].
  split; [now apply (upsert_effect_frame _ _ _ _ _ _ _ Heff) |].
  split; [now apply (upsert_effect_count _ _ _ _ _ _ _ Heff) |].
  now apply (upsert_effect_row _ _ _ _ _ _ _ Heff).
Qed.

(** *** C2: the same request twice *)

Lemma second_request c2 s b d1 u eid ev r1 :
  rsvps_unique d1 -> authMiddleware s = inr u -> validateRSVP b = [] ->
  eventId b = Some eid -> select_active_event d1 eid = Some ev ->
  filter (rsvp_for (su_id u) eid) (rsvps d1) = [r1] ->
  r_status r1 = status b -> r_notes r1 = notes_or_null (notes b) ->
  let o2 := post_rsvp no_faults c2 s b d1 in
  exists r,
    filter (rsvp_for (su_id u) eid) (rsvps (db_after o2)) = [r]
    /\ r_status r = status b /\ r_notes r = notes_or_null (notes b)
    /\ if not_in_future (e_event_date ev) (date_now c2)
       then reply o2 = Reply 400 (JError "Cannot RSVP to past events")
            /\ db_after o2 = d1 /\ r_rsvp_date r = r_rsvp_date r1
       else if (status b =? "attending")%string
               && declares_capacity (e_max_attendees ev)
               && at_capacity (count_attending d1 eid) (e_max_attendees ev)
       then reply o2 = Reply 400 (JError "Event is at full capacity")
            /\ db_after o2 = d1 /\ r_rsvp_date r = r_rsvp_date r1
       else is_success (reply o2) = true
            /\ r_rsvp_date r = current_timestamp c2.
Proof.
  intros Hu Ha Hv He Hsel Hrow Hst Hnotes. simpl.
  destruct (not_in_future (e_event_date ev) (date_now c2)) eqn:Hdate.
  { exists r1. unfold post_rsvp, checked_rsvp, db_call.
    rewrite Ha, Hv, He. simpl. rewrite Hsel, Hdate. simpl. repeat split; auto. }
  destruct ((status b =? "attending")%string
            && declares_capacity (e_max_attendees ev)) eqn:Hgate; simpl.
  - destruct (at_capacity (count_attending d1 eid) (e_max_attendees ev))
      eqn:Hcap.
    { exists r1. unfold post_rsvp, checked_rsvp, db_call.
      rewrite Ha, Hv, He. simpl. rewrite Hsel, Hdate, Hgate, Hcap. simpl.
      repeat split; auto. }
    assert (Hp : passes_checks no_faults c2 s b d1 u eid ev).
    { unfold passes_checks. rewrite Hgate. repeat split; auto. }
    destruct (post_rsvp_served c2 s b d1 u eid ev Hp Hu)
      as (Hok & _ & _ & _ & r & Hr & Hs & Hn & Hd & _).
    exists r. repeat split; auto.
  - assert (Hp : passes_checks no_faults c2 s b d1 u eid ev).
    { unfold passes_checks. rewrite Hgate. repeat split; auto; discriminate. }
    destruct (post_rsvp_served c2 s b d1 u eid ev Hp Hu)
      as (Hok & _ & _ & _ & r & Hr & Hs & Hn & Hd & _).
    exists r. repeat split; auto.
Qed.

(** C2, as amended.  After a request that succeeded, the same request
    from the same identity leaves exactly one row for (identity, event),
    with the status and the note of the request.  The second request
    succeeds and stamps the row anew, unless the event is no longer in
    the future or the request is for 'attending' at an event whose
    attending count, the row of the requester included, has reached the
    capacity; it is then refused and the row keeps the stamp of the first
    request. *)
Theorem repeated_upsert (f1 : StoreFaults) (c1 c2 : Clock) (s : Session)
    (b : RsvpBody) (d : Db) (u : SessionUser) (eid : Z) (ev : Event) :
  rsvps_unique d -> authMiddleware s = inr u -> eventId b = Some eid ->
  select_active_event d eid = Some ev ->
  let o1 := post_rsvp f1 c1 s b d in
  let o2 := post_rsvp no_faults c2 s b (db_after o1) in
  is_success (reply o1) = true ->
  exists r,
    filter (rsvp_for (su_id u) eid) (rsvps (db_after o2)) = [r]
    /\ r_status r = status b /\ r_notes r = notes_or_null (notes b)
    /\ if not_in_future (e_event_date ev) (date_now c2)
       then reply o2 = Reply 400 (JError "Cannot RSVP to past events")
            /\ db_after o2 = db_after o1
            /\ r_rsvp_date r = current_timestamp c1
       else if (status b =? "attending")%string
               && declares_capacity (e_max_attendees ev)
               && at_capacity (count_attending (db_after o1) eid)
                    (e_max_attendees ev)
       then reply o2 = Reply 400 (JError "Event is at full capacity")
            /\ db_after o2 = db_after o1
            /\ r_rsvp_date r = current_timestamp c1
       else is_success (reply o2) = true
            /\ r_rsvp_date r = current_timestamp c2.
Proof.
  intros Hu Ha He Hsel o1 o2 Hok. subst o1 o2.
  destruct (post_rsvp_effect f1 c1 s b d)
    as [(r & Heq & Hr & _) | (u' & eid' & ev' & Hp)].
  { rewrite Heq in Hok. simpl in Hok. congruence. }
  pose proof Hp as (Ha' & Hv & He' & _).
  assert (u' = u) by congruence. assert (eid' = eid) by congruence.
  subst u' eid'.
  rewrite (post_rsvp_passes _ _ _ _ _ _ _ _ Hp) in *.
  pose proof (upsertRSVP_effect f1 c1 (su_id u) eid b d) as Heff.
  destruct (upsert_effect_success _ _ _ _ _ _ _ Heff Hok) as [Hw _].
  destruct (upsert_effect_row _ _ _ _ _ _ _ Heff Hu Hw)
    as (r1 & Hrow & Hst & Hn & Hd & _).
  destruct (upsert_effect_frame _ _ _ _ _ _ _ Heff) as [_ Hev].
  rewrite <- Hd.
  apply second_request; auto.
  - now apply (upsert_effect_unique _ _ _ _ _ _ _ Heff).
  - now rewrite (select_active_event_frame d _ eid Hev).
Qed.

Lemma repeated_upsert_witness :
  let o1 := post_rsvp no_faults (Examples.at_time 10) (Some Examples.alice)
              Examples.perhaps Examples.db0 in
  let o2 := post_rsvp no_faults (Examples.at_time 11) (Some Examples.alice)
              Examples.perhaps (db_after o1) in
  exists r,
    filter (rsvp_for 2 1) (rsvps (db_after o2)) = [r]
    /\ r_status r = "maybe" /\ r_notes r = None
    /\ is_success (reply o2) = true /\ r_rsvp_date r = 11.
Proof.
  exact (repeated_upsert no_faults (Examples.at_time 10) (Examples.at_time 11)
           (Some Examples.alice) Examples.perhaps Examples.db0 Examples.alice
           1 Examples.dinner (NoDup_nil _) eq_refl eq_refl eq_refl eq_refl).
Defined.

(** C2, as stated, fails: the second of two identical 'attending'
    requests is refused once the first has filled the event. *)
Lemma repeated_attending_refused :
  let o1 := post_rsvp no_faults (Examples.at_time 10) (Some Examples.alice)
              Examples.going Examples.db0 in
  let o2 := post_rsvp no_faults (Examples.at_time 11) (Some Examples.alice)
              Examples.going (db_after o1) in
  is_success (reply o1) = true
  /\ reply o2 = Reply 400 (JError "Event is at full capacity")
  /\ is_success (reply o2) = false.
Proof. vm_compute. repeat split. Qed.

(** *** C6: the capacity check gates 'attending' only *)

Lemma post_rsvp_full f c s b d u eid ev :
  authMiddleware s = inr u -> validateRSVP b = [] -> eventId b = Some eid ->
  fail_event f = false -> fail_count f = false ->
  select_active_event d eid = Some ev ->
  not_in_future (e_event_date ev) (date_now c) = false ->
  status b = "attending" ->
  declares_capacity (e_max_attendees ev) = true ->
  at_capacity (count_attending d eid) (e_max_attendees ev) = true ->
  post_rsvp f c s b d
  = respond (Reply 400 (JError "Event is at full capacity")) d [].
Proof.
  intros Ha Hv He Hf Hfc Hsel Hdate Hst Hdecl Hcap.
  unfold post_rsvp, checked_rsvp, db_call.
  now rewrite Ha, Hv, He, Hf, Hsel, Hdate, Hst, Hdecl, Hfc, Hcap.
Qed.

(** C6.  At an active, future event with [max_attendees = 1] and no
    attending RSVP: A's 'attending' succeeds; B's 'attending' then gets
    the capacity failure; A's 'maybe' then succeeds and overwrites A's row
    in place, so that the attending count is 0; B's 'attending' then
    succeeds. *)
Theorem capacity_gates_attending_only (d : Db) (ev : Event) (eid : Z)
    (a bu : SessionUser) (c1 c2 c3 c4 : Clock) (n1 n2 n3 n4 : option string) :
  rsvps_unique d ->
  authMiddleware (Some a) = inr a -> authMiddleware (Some bu) = inr bu ->
  su_id a <> su_id bu ->
  validateRSVP (rsvp_body eid "attending" n1) = [] ->
  validateRSVP (rsvp_body eid "attending" n2) = [] ->
  validateRSVP (rsvp_body eid "maybe" n3) = [] ->
  validateRSVP (rsvp_body eid "attending" n4) = [] ->
  select_active_event d eid = Some ev -> e_max_attendees ev = Some 1 ->
  count_attending d eid = 0 ->
  not_in_future (e_event_date ev) (date_now c1) = false ->
  not_in_future (e_event_date ev) (date_now c2) = false ->
  not_in_future (e_event_date ev) (date_now c3) = false ->
  not_in_future (e_event_date ev) (date_now c4) = false ->
  let o1 := post_rsvp no_faults c1 (Some a) (rsvp_body eid "attending" n1) d in
  let o2 := post_rsvp no_faults c2 (Some bu) (rsvp_body eid "attending" n2)
              (db_after o1) in
  let o3 := post_rsvp no_faults c3 (Some a) (rsvp_body eid "maybe" n3)
              (db_after o2) in
  let o4 := post_rsvp no_faults c4 (Some bu) (rsvp_body eid "attending" n4)
              (db_after o3) in
  is_success (reply o1) = true /\ count_attending (db_after o1) eid = 1
  /\ reply o2 = Reply 400 (JError "Event is at full capacity")
  /\ db_after o2 = db_after o1
  /\ is_success (reply o3) = true /\ count_attending (db_after o3) eid = 0
  /\ (exists r1 r3,
        filter (rsvp_for (su_id a) eid) (rsvps (db_after o1)) = [r1]
        /\ filter (rsvp_for (su_id a) eid) (rsvps (db_after o3)) = [r3]
        /\ r_status r1 = "attending" /\ r_status r3 = "maybe"
        /\ r_id r3 = r_id r1)
  /\ is_success (reply o4) = true /\ count_attending (db_after o4) eid = 1.
Proof.
  intros Hu Ha Hb Hab Hv1 Hv2 Hv3 Hv4 Hsel Hmax Hcount Ht1 Ht2 Ht3 Ht4.
  intros o1 o2 o3 o4.
  (* A attends *)
  assert (Hp1 : passes_checks no_faults c1 (Some a)
                  (rsvp_body eid "attending" n1) d a eid ev).
  { unfold passes_checks. rewrite Hmax, Hcount. repeat split; auto. }
  destruct (post_rsvp_served _ _ _ _ _ _ _ Hp1 Hu)
    as (Hok1 & Hu1 & Hev1 & Hc1 & r1 & Hr1 & Hs1 & _).
  fold o1 in Hok1, Hu1, Hev1, Hc1, Hr1.
  assert (Hold1 : old_attending d (su_id a) eid = false).
  { destruct (old_attending d (su_id a) eid) eqn:Ho; [| reflexivity].
    apply old_attending_counted in Ho. lia. }
  rewrite Hold1, Hcount in Hc1. simpl in Hc1.
  assert (Hcount1 : count_attending (db_after o1) eid = 1) by lia.
  assert (Hsel1 : select_active_event (db_after o1) eid = Some ev).
  { now rewrite (select_active_event_frame d _ eid Hev1). }
  (* B is refused *)
  assert (Ho2 : o2 = respond (Reply 400 (JError "Event is at full capacity"))
                       (db_after o1) []).
  { apply (post_rsvp_full _ _ _ _ _ bu eid ev); auto.
    - now rewrite Hmax.
    - now rewrite Hmax, Hcount1. }
  assert (Hd2 : db_after o2 = db_after o1) by now rewrite Ho2.
  (* A switches to maybe *)
  assert (Hp3 : passes_checks no_faults c3 (Some a)
                  (rsvp_body eid "maybe" n3) (db_after o2) a eid ev).
  { unfold passes_checks. rewrite Hd2. simpl.
    repeat split; auto; discriminate. }
  assert (Hu2 : rsvps_unique (db_after o2)) by now rewrite Hd2.
  destruct (post_rsvp_served _ _ _ _ _ _ _ Hp3 Hu2)
    as (Hok3 & Hu3 & Hev3 & Hc3 & r3 & Hr3 & Hs3 & _ & _ & Hid3).
  fold o3 in Hok3, Hu3, Hev3, Hc3, Hr3.
  assert (Hfind1 : select_rsvp (db_after o2) (su_id a) eid = Some r1).
  { rewrite Hd2. unfold select_rsvp. now apply find_of_filter with []. }
  assert (Hold3 : old_attending (db_after o2) (su_id a) eid = true).
  { unfold old_attending. rewrite Hfind1. simpl in Hs1. now rewrite Hs1. }
  rewrite Hold3, Hd2, Hcount1 in Hc3. simpl in Hc3.
  assert (Hcount3 : count_attending (db_after o3) eid = 0) by lia.
  (* B attends *)
  assert (Hp4 : passes_checks no_faults c4 (Some bu)
                  (rsvp_body eid "attending" n4) (db_after o3) bu eid ev).
  { unfold passes_checks. rewrite Hcount3, Hmax.
    rewrite (select_active_event_frame (db_after o2) _ eid Hev3), Hd2.
    repeat split; auto. }
  destruct (post_rsvp_served _ _ _ _ _ _ _ Hp4 Hu3)
    as (Hok4 & _ & _ & Hc4 & _).
  fold o4 in Hok4, Hc4.
  assert (Hold4 : old_attending (db_after o3) (su_id bu) eid = false).
  { destruct (old_attending (db_after o3) (su_id bu) eid) eqn:Ho;
      [| reflexivity].
    apply old_attending_counted in Ho. lia. }
  rewrite Hold4, Hcount3 in Hc4. simpl in Hc4.
  repeat split; auto; try lia.
  - now rewrite Ho2.
  - exists r1, r3. repeat split; auto.
Qed.

Lemma capacity_gates_attending_only_witness :
  let o1 := post_rsvp no_faults (Examples.at_time 10) (Some Examples.alice)
              (rsvp_body 1 "attending" (Some "see you")) Examples.db0 in
  let o2 := post_rsvp no_faults (Examples.at_time 11) (Some Examples.bob)
              (rsvp_body 1 "attending" None) (db_after o1) in
  let o3 := post_rsvp no_faults (Examples.at_time 12) (Some Examples.alice)
              (rsvp_body 1 "maybe" None) (db_after o2) in
  let o4 := post_rsvp no_faults (Examples.at_time 13) (Some Examples.bob)
              (rsvp_body 1 "attending" None) (db_after o3) in
  is_success (reply o1) = true /\ count_attending (db_after o1) 1 = 1
  /\ reply o2 = Reply 400 (JError "Event is at full capacity")
  /\ db_after o2 = db_after o1
  /\ is_success (reply o3) = true /\ count_attending (db_after o3) 1 = 0
  /\ (exists r1 r3,
        filter (rsvp_for 2 1) (rsvps (db_after o1)) = [r1]
        /\ filter (rsvp_for 2 1) (rsvps (db_after o3)) = [r3]
        /\ r_status r1 = "attending" /\ r_status r3 = "maybe"
        /\ r_id r3 = r_id r1)
  /\ is_success (reply o4) = true /\ count_attending (db_after o4) 1 = 1.
Proof.
  apply (capacity_gates_attending_only Examples.db0 Examples.dinner 1
           Examples.alice Examples.bob (Examples.at_time 10)
           (Examples.at_time 11) (Examples.at_time 12) (Examples.at_time 13)
           (Some "see you") None None None);
    try reflexivity.
  - constructor.
  - simpl. lia.
Defined.

End RsvpFacts.

(** ** Facts about the identity service *)

Module AuthFacts.
Import Store Http Auth StoreFacts.


Lemma select_user_unknown d username email :
  (forall u, In u (users d) ->
             u_username u <> username /\ u_email u <> email) ->
  select_user d username email = None.
Proof.
  intros H. unfold select_user.
  destruct (find (user_named username email) (users d)) as [u|] eqn:Hf;
    [| reflexivity].
  apply find_some in Hf as [Hin Hm]. destruct (H u Hin) as [Hn He].
  unfold user_named in Hm. apply orb_true_iff in Hm as [Hm | Hm];
    apply String.eqb_eq in Hm; contradiction.
Qed.

Section Register.

Variable isEmail : string -> bool.
Variable bcrypt_hash : string -> string -> option string.


End Register.

Section Login.

Variable bcrypt_compare : string -> string -> option bool.

(** C9.  A login under a name that no stored user has as username or
    email, and a login under a known name with a password that does not
    match, get the same reply, status 401 with the same message, and
    neither sets the session. *)
Theorem login_failures_indistinguishable (s : Session) (b1 b2 : LoginBody)
    (d : Db) (u : User) :
  validateLogin b1 = [] -> validateLogin b2 = [] ->
  (forall u', In u' (users d) ->
              u_username u' <> login_username b1
              /\ u_email u' <> login_username b1) ->
  select_user d (login_username b2) (login_username b2) = Some u ->
  bcrypt_compare (login_password b2) (u_password_hash u) = Some false ->
  post_login bcrypt_compare false s b1 d
  = answer (Reply 401 (JError "Invalid username or password")) d s
  /\ post_login bcrypt_compare false s b2 d
     = answer (Reply 401 (JError "Invalid username or password")) d s
  /\ a_reply (post_login bcrypt_compare false s b1 d)
     = a_reply (post_login bcrypt_compare false s b2 d).
Proof.
  intros Hv1 Hv2 Hunknown Hknown Hwrong.
  assert (H1 : post_login bcrypt_compare false s b1 d
               = answer (Reply 401 (JError "Invalid username or password"))
                   d s).
  { unfold post_login, db_call. rewrite Hv1.
    now rewrite (select_user_unknown d _ _ Hunknown). }
  assert (H2 : post_login bcrypt_compare false s b2 d
               = answer (Reply 401 (JError "Invalid username or password"))
                   d s).
  { unfold post_login, db_call. now rewrite Hv2, Hknown, Hwrong. }
  now rewrite H1, H2.
Qed.

End Login.


Lemma login_failures_indistinguishable_witness :
  post_login Examples.toy_compare false None Examples.login_stranger
    Examples.db0
  = answer (Reply 401 (JError "Invalid username or password"))
      Examples.db0 None
  /\ post_login Examples.toy_compare false None
       Examples.login_wrong_password Examples.db0
     = answer (Reply 401 (JError "Invalid username or password"))
         Examples.db0 None
  /\ a_reply (post_login Examples.toy_compare false None
                Examples.login_stranger Examples.db0)
     = a_reply (post_login Examples.toy_compare false None
                  Examples.login_wrong_password Examples.db0).
Proof.
  apply (login_failures_indistinguishable Examples.toy_compare None
           Examples.login_stranger Examples.login_wrong_password Examples.db0
           Examples.alice_row).
  - reflexivity.
  - reflexivity.
  - intros u' [<- | []]. simpl. split; discriminate.
  - reflexivity.
  - reflexivity.
Defined.

End AuthFacts.

(** ** More facts about [routes/rsvps.js] *)

Module RsvpMoreFacts.
Import Store Http Rsvps StoreFacts RsvpFacts.

Lemma find_by_id_of_active d eid ev :
  NoDup (map e_id (events d)) -> select_active_event d eid = Some ev ->
  find (fun e => (e_id e =? eid)%Z) (events d) = Some ev.
Proof.
  intros Hpk Hsel. apply find_some in Hsel as [Hin Hact].
  unfold is_active_event in Hact. apply andb_true_iff in Hact as [Hid _].
  destruct (find (fun e => (e_id e =? eid)%Z) (events d)) as [e'|] eqn:Hf.
  - apply find_some in Hf as [Hin' Hid']. f_equal.
    apply Z.eqb_eq in Hid, Hid'.
    apply (nodup_map_inj e_id (events d)); congruence.
  - apply (find_none _ _ Hf) in Hin. congruence.
Qed.

Lemma served_reply c s b d u eid ev :
  passes_checks no_faults c s b d u eid ev ->
  reply (post_rsvp no_faults c s b d)
  = Reply 200 (JRsvpSaved
                 (select_rsvp_details
                    (db_after (post_rsvp no_faults c s b d)) (su_id u) eid)).
Proof.
  intros Hp. rewrite (post_rsvp_passes _ _ _ _ _ _ _ _ Hp).
  pose proof Hp as (_ & Hv & _).
  destruct (validateRSVP_ok b Hv) as [_ Hck].
  destruct (upsertRSVP_runs c (su_id u) eid b d Hck) as [_ Hw].
  destruct (upsertRSVP_effect no_faults c (su_id u) eid b d)
    as [r ? ? | r0 Hsel | Hsel Hck']; simpl in *;
    [congruence | reflexivity | reflexivity].
Qed.

(** X1.  The reply to a served request shows the stored row of
    (identity, event) with the request's status, note and stamp, joined
    with the title, date and location of the event. *)
Theorem saved_reply_shows_stored_row (c : Clock) (s : Session) (b : RsvpBody)
    (d : Db) (u : SessionUser) (eid : Z) (ev : Event) :
  passes_checks no_faults c s b d u eid ev ->
  rsvps_unique d -> NoDup (map e_id (events d)) ->
  let o := post_rsvp no_faults c s b d in
  exists r,
    reply o = Reply 200 (JRsvpSaved
                (Some {| rd_rsvp := r; rd_title := e_title ev;
                         rd_event_date := e_event_date ev;
                         rd_location := e_location ev |}))
    /\ select_rsvp (db_after o) (su_id u) eid = Some r
    /\ r_user_id r = su_id u /\ r_event_id r = eid
    /\ r_status r = status b /\ r_notes r = notes_or_null (notes b)
    /\ r_rsvp_date r = current_timestamp c.
Proof.
  intros Hp Hu Hpk o.
  destruct (post_rsvp_served c s b d u eid ev Hp Hu)
    as (_ & _ & Hev & _ & r & Hr & Hs & Hn & Hd & _).
  fold o in Hev, Hr.
  assert (Hfind : select_rsvp (db_after o) (su_id u) eid = Some r).
  { unfold select_rsvp. now apply find_of_filter with []. }
  assert (Hkey : rsvp_key r = (su_id u, eid)).
  { apply rsvp_for_key. unfold select_rsvp in Hfind.
    now apply find_some in Hfind. }
  assert (Hku : r_user_id r = su_id u)
    by (unfold rsvp_key in Hkey; congruence).
  assert (Hke : r_event_id r = eid)
    by (unfold rsvp_key in Hkey; congruence).
  exists r. repeat split; auto.
  unfold o at 1. rewrite (served_reply c s b d u eid ev Hp). fold o.
  unfold select_rsvp_details. unfold select_rsvp in Hfind. rewrite Hfind.
  rewrite Hke, Hev.
  destruct Hp as (_ & _ & _ & _ & Hsel & _).
  now rewrite (find_by_id_of_active d eid ev Hpk Hsel).
Qed.

(** X2.  The capacity check stops 'attending' at a capped event only: a
    valid request for an active, future event with another status, or at
    an event whose [max_attendees] is NULL or 0, is served whatever the
    attending count. *)
Theorem uncapped_request_served (c : Clock) (s : Session) (b : RsvpBody)
    (d : Db) (u : SessionUser) (eid : Z) (ev : Event) :
  authMiddleware s = inr u -> validateRSVP b = [] -> eventId b = Some eid ->
  select_active_event d eid = Some ev ->
  not_in_future (e_event_date ev) (date_now c) = false ->
  rsvps_unique d ->
  status b <> "attending" \/ e_max_attendees ev = None
  \/ e_max_attendees ev = Some 0 ->
  let o := post_rsvp no_faults c s b d in
  is_success (reply o) = true
  /\ exists r, select_rsvp (db_after o) (su_id u) eid = Some r
               /\ r_status r = status b.
Proof.
  intros Ha Hv He Hsel Hdate Hu Hfree o.
  assert (Hgate : (status b =? "attending")%string
                  && declares_capacity (e_max_attendees ev) = false).
  { destruct Hfree as [Hst | [Hm | Hm]].
    - apply String.eqb_neq in Hst. now rewrite Hst.
    - rewrite Hm. apply andb_false_r.
    - rewrite Hm. apply andb_false_r. }
  assert (Hp : passes_checks no_faults c s b d u eid ev).
  { unfold passes_checks. rewrite Hgate. repeat split; auto; discriminate. }
  destruct (post_rsvp_served c s b d u eid ev Hp Hu)
    as (Hok & _ & _ & _ & r & Hr & Hs & _).
  split; [exact Hok |]. exists r. split; [| exact Hs].
  unfold select_rsvp. now apply find_of_filter with [].
Qed.

Ltac concrete_checks :=
  unfold passes_checks; repeat split; try reflexivity; try discriminate.

Lemma saved_reply_shows_stored_row_witness :
  let o := post_rsvp no_faults (Examples.at_time 10) (Some Examples.alice)
             Examples.going Examples.db0 in
  exists r,
    reply o = Reply 200 (JRsvpSaved
                (Some {| rd_rsvp := r; rd_title := "Dinner";
                         rd_event_date := Some 1000;
                         rd_location := "Home" |}))
    /\ select_rsvp (db_after o) 2 1 = Some r
    /\ r_user_id r = 2 /\ r_event_id r = 1
    /\ r_status r = "attending" /\ r_notes r = Some "see you"
    /\ r_rsvp_date r = 10.
Proof.
  apply (saved_reply_shows_stored_row (Examples.at_time 10)
           (Some Examples.alice) Examples.going Examples.db0 Examples.alice 1
           Examples.dinner).
  - concrete_checks.
  - constructor.
  - repeat constructor; simpl; intuition discriminate.
Defined.

Lemma uncapped_request_served_witness :
  let o := post_rsvp no_faults (Examples.at_time 11) (Some Examples.bob)
             Examples.perhaps Examples.db1 in
  is_success (reply o) = true
  /\ exists r, select_rsvp (db_after o) 3 1 = Some r /\ r_status r = "maybe".
Proof.
  apply (uncapped_request_served (Examples.at_time 11) (Some Examples.bob)
           Examples.perhaps Examples.db1 Examples.bob 1 Examples.dinner);
    try reflexivity.
  - vm_compute. repeat constructor. simpl. tauto.
  - left. discriminate.
Defined.

(** *** Keys *)

Lemma max_rowid_bound ids x : In x ids -> x <= max_rowid ids.
Proof.
  induction ids as [|y ids IH]; simpl; [tauto |].
  intros [-> | Hin]; [lia | specialize (IH Hin); lia].
Qed.

Lemma next_rowid_fresh seq ids : ~ In (next_rowid seq ids) ids.
Proof.
  intros Hin. apply max_rowid_bound in Hin. unfold next_rowid in Hin. lia.
Qed.

Lemma update_rows_ids u e s n ts l :
  map r_id (update_rows u e s n ts l) = map r_id l.
Proof.
  unfold update_rows. rewrite map_map. apply map_ext.
  intros r. destruct (rsvp_for u e r); reflexivity.
Qed.

Lemma nodup_map_filter {A B} (g : A -> B) (p : A -> bool) l :
  NoDup (map g l) -> NoDup (map g (filter p l)).
Proof.
  induction l as [|a l IH]; simpl; [auto |].
  intros Hnd. inversion Hnd as [|k ks Hnotin Hnd']; subst.
  destruct (p a); simpl; [| auto].
  constructor; [| auto].
  intros Hin. apply Hnotin. apply in_map_iff in Hin as (x & Hx & Hin).
  apply filter_In in Hin as [Hin _]. rewrite <- Hx. now apply in_map.
Qed.

(** X3.  Whatever the request and whatever the driver reports, POST /rsvps
    keeps the primary key of [rsvps] and UNIQUE(user_id, event_id): an
    inserted row takes an id that no stored row has. *)
Theorem post_rsvp_keeps_keys (f : StoreFaults) (c : Clock) (s : Session)
    (b : RsvpBody) (d : Db) :
  rsvps_unique d -> NoDup (map r_id (rsvps d)) ->
  let d' := db_after (post_rsvp f c s b d) in
  rsvps_unique d' /\ NoDup (map r_id (rsvps d')).
Proof.
  intros Hu Hid.
  destruct (post_rsvp_effect f c s b d)
    as [(r & -> & _ & _) | (u & eid & ev & Hp)]; simpl.
  { auto. }
  rewrite (post_rsvp_passes _ _ _ _ _ _ _ _ Hp).
  pose proof (upsertRSVP_effect f c (su_id u) eid b d) as Heff.
  split; [now apply (upsert_effect_unique _ _ _ _ _ _ _ Heff) |].
  destruct Heff as [r ? ? | r0 Hsel | Hsel Hck]; simpl.
  - exact Hid.
  - now rewrite update_rows_ids.
  - rewrite map_app. simpl. apply NoDup_app; [exact Hid | | ].
    + repeat constructor. simpl. tauto.
    + intros k Hin [<- | []]. now apply next_rowid_fresh in Hin.
Qed.

Lemma post_rsvp_keeps_keys_witness :
  let d' := db_after (post_rsvp no_faults (Examples.at_time 11)
                        (Some Examples.bob) Examples.perhaps Examples.db1) in
  rsvps_unique d' /\ NoDup (map r_id (rsvps d')).
Proof.
  apply (post_rsvp_keeps_keys no_faults (Examples.at_time 11)
           (Some Examples.bob) Examples.perhaps Examples.db1).
  - vm_compute. repeat constructor. simpl. tauto.
  - vm_compute. repeat constructor. simpl. tauto.
Defined.

(** X4.  A request touches no row but the requester's own row for the
    requested event: the rows of every other (user, event) pair are as
    before, whatever the driver reports. *)
Theorem post_rsvp_own_row_only (f : StoreFaults) (c : Clock) (s : Session)
    (b : RsvpBody) (d : Db) (u : SessionUser) (eid u' e' : Z) :
  authMiddleware s = inr u -> eventId b = Some eid ->
  (u', e') <> (su_id u, eid) ->
  filter (rsvp_for u' e') (rsvps (db_after (post_rsvp f c s b d)))
  = filter (rsvp_for u' e') (rsvps d).
Proof.
  intros Ha He Hne.
  destruct (post_rsvp_effect f c s b d)
    as [(r & -> & _ & _) | (u0 & eid0 & ev & Hp)]; simpl.
  { reflexivity. }
  rewrite (post_rsvp_passes _ _ _ _ _ _ _ _ Hp).
  destruct Hp as (Ha' & _ & He' & _).
  assert (u0 = u) by congruence. assert (eid0 = eid) by congruence.
  subst u0 eid0.
  destruct (upsertRSVP_effect f c (su_id u) eid b d)
    as [r ? ? | r0 Hsel | Hsel Hck]; simpl.
  - reflexivity.
  - unfold update_rows. induction (rsvps d) as [|x l IH]; simpl;
      [reflexivity |].
    destruct (rsvp_for (su_id u) eid x) eqn:Hx.
    + rewrite set_response_for.
      destruct (rsvp_for u' e' x) eqn:Hx'.
      * apply rsvp_for_key in Hx, Hx'. congruence.
      * exact IH.
    + destruct (rsvp_for u' e' x); [now rewrite IH | exact IH].
  - rewrite filter_app. simpl.
    destruct (rsvp_for u' e' (new_row c (su_id u) eid b d)) eqn:Hr.
    + apply rsvp_for_key in Hr. unfold rsvp_key in Hr. simpl in Hr.
      congruence.
    + apply app_nil_r.
Qed.

Lemma post_rsvp_own_row_only_witness :
  filter (rsvp_for 2 1)
    (rsvps (db_after (post_rsvp no_faults (Examples.at_time 11)
                        (Some Examples.bob) Examples.perhaps Examples.db1)))
  = filter (rsvp_for 2 1) (rsvps Examples.db1).
Proof.
  apply (post_rsvp_own_row_only no_faults (Examples.at_time 11)
           (Some Examples.bob) Examples.perhaps Examples.db1 Examples.bob 1);
    [reflexivity | reflexivity | discriminate].
Defined.

(** *** DELETE /rsvps/:eventId, continued *)

Lemma delete_rows_count u e l :
  NoDup (map rsvp_key l) ->
  (attending_in e (filter (fun r => negb (rsvp_for u e r)) l)
   + b2n (match find (rsvp_for u e) l with
          | Some r0 => (r_status r0 =? "attending")%string
          | None => false
          end)
   = attending_in e l)%nat.
Proof.
  unfold attending_in.
  induction l as [|r l IH]; simpl; [reflexivity |].
  intros Hnd. inversion Hnd as [|k ks Hnotin Hnd']; subst.
  destruct (rsvp_for u e r) eqn:Hr; simpl.
  - assert (Hno : existsb (rsvp_for u e) l = false).
    { apply no_row_not_in. apply rsvp_for_key in Hr. now rewrite <- Hr. }
    rewrite (filter_negb_none _ _ Hno).
    assert (Hev : r_event_id r = e).
    { apply rsvp_for_key in Hr. inversion Hr; reflexivity. }
    assert (H1 : is_attending e r = (r_status r =? "attending")%string).
    { unfold is_attending. now rewrite Hev, Z.eqb_refl. }
    rewrite H1. destruct (r_status r =? "attending")%string; simpl; lia.
  - specialize (IH Hnd'). destruct (is_attending e r); simpl; lia.
Qed.

Lemma delete_rows_other u e u' e' l :
  (u', e') <> (u, e) ->
  filter (rsvp_for u' e') (filter (fun r => negb (rsvp_for u e r)) l)
  = filter (rsvp_for u' e') l.
Proof.
  intros Hne. induction l as [|r l IH]; simpl; [reflexivity |].
  destruct (rsvp_for u e r) eqn:Hr; simpl.
  - destruct (rsvp_for u' e' r) eqn:Hr'; [| exact IH].
    apply rsvp_for_key in Hr, Hr'. congruence.
  - destruct (rsvp_for u' e' r); [now rewrite IH | exact IH].
Qed.

Lemma delete_route_rows s u eid d :
  authMiddleware s = inr u ->
  let d' := db_after (delete_rsvp_route false s eid d) in
  rsvps d' = filter (fun r => negb (rsvp_for (su_id u) eid r)) (rsvps d)
  /\ users d' = users d /\ events d' = events d
  /\ rsvps_seq d' = rsvps_seq d.
Proof.
  intros Ha. unfold delete_rsvp_route, delete_rsvp. rewrite Ha. simpl.
  destruct (_ =? 0)%nat; simpl; auto.
Qed.

Lemma delete_route_count s u eid d :
  authMiddleware s = inr u -> rsvps_unique d ->
  count_attending (db_after (delete_rsvp_route false s eid d)) eid
  + Z.of_nat (b2n (old_attending d (su_id u) eid))
  = count_attending d eid.
Proof.
  intros Ha Hu.
  destruct (delete_route_rows s u eid d Ha) as (Hrows & _).
  rewrite !count_attending_eq, Hrows. unfold old_attending, select_rsvp.
  pose proof (delete_rows_count (su_id u) eid (rsvps d) Hu). lia.
Qed.

Lemma delete_route_unique s u eid d :
  authMiddleware s = inr u -> rsvps_unique d ->
  rsvps_unique (db_after (delete_rsvp_route false s eid d)).
Proof.
  intros Ha Hu.
  destruct (delete_route_rows s u eid d Ha) as (Hrows & _).
  unfold rsvps_unique. rewrite Hrows. now apply nodup_map_filter.
Qed.

(** X5.  Deleting an RSVP lowers the attending count of the event by one
    when the deleted row was 'attending' and not otherwise, and leaves the
    rows of every other (user, event) pair, the users and the events as
    they were. *)
Theorem delete_frees_a_place (s : Session) (u : SessionUser) (eid : Z)
    (d : Db) :
  authMiddleware s = inr u -> rsvps_unique d ->
  let d' := db_after (delete_rsvp_route false s eid d) in
  count_attending d' eid + Z.of_nat (b2n (old_attending d (su_id u) eid))
  = count_attending d eid
  /\ (forall u' e', (u', e') <> (su_id u, eid) ->
        filter (rsvp_for u' e') (rsvps d') = filter (rsvp_for u' e') (rsvps d))
  /\ users d' = users d /\ events d' = events d /\ rsvps_unique d'.
Proof.
  intros Ha Hu d'.
  destruct (delete_route_rows s u eid d Ha) as (Hrows & Hus & Hev & _).
  fold d' in Hrows, Hus, Hev.
  split; [| split; [| split; [exact Hus | split; [exact Hev |]]]].
  - now apply (delete_route_count s u eid d).
  - intros u' e' Hne. rewrite Hrows. now apply delete_rows_other.
  - now apply (delete_route_unique s u eid d).
Qed.

Lemma delete_frees_a_place_witness :
  let d' := db_after (delete_rsvp_route false (Some Examples.alice) 1
                        Examples.db1) in
  count_attending d' 1 + Z.of_nat (b2n (old_attending Examples.db1 2 1))
  = count_attending Examples.db1 1
  /\ (forall u' e', (u', e') <> (2, 1) ->
        filter (rsvp_for u' e') (rsvps d')
        = filter (rsvp_for u' e') (rsvps Examples.db1))
  /\ users d' = users Examples.db1 /\ events d' = events Examples.db1
  /\ rsvps_unique d'.
Proof.
  apply (delete_frees_a_place (Some Examples.alice) Examples.alice 1
           Examples.db1).
  - reflexivity.
  - vm_compute. repeat constructor. simpl. tauto.
Defined.

(** X6.  At a full event, a further 'attending' request is refused; once
    a user who attends has deleted their RSVP, the same request is
    served. *)
Theorem freed_place_is_taken (c : Clock) (a bu : SessionUser) (b : RsvpBody)
    (d : Db) (eid cap : Z) (ev : Event) :
  rsvps_unique d ->
  authMiddleware (Some a) = inr a -> authMiddleware (Some bu) = inr bu ->
  validateRSVP b = [] -> eventId b = Some eid -> status b = "attending" ->
  select_active_event d eid = Some ev ->
  not_in_future (e_event_date ev) (date_now c) = false ->
  e_max_attendees ev = Some cap -> count_attending d eid = cap ->
  old_attending d (su_id a) eid = true ->
  let d1 := db_after (delete_rsvp_route false (Some a) eid d) in
  post_rsvp no_faults c (Some bu) b d
  = respond (Reply 400 (JError "Event is at full capacity")) d []
  /\ is_success (reply (post_rsvp no_faults c (Some bu) b d1)) = true.
Proof.
  intros Hu Ha Hb Hv He Hst Hsel Hdate Hmax Hfull Hold d1.
  pose proof (old_attending_counted d (su_id a) eid Hold) as Hpos.
  assert (Hdecl : declares_capacity (Some cap) = true).
  { simpl. apply negb_true_iff. apply Z.eqb_neq. lia. }
  split.
  - apply (post_rsvp_full _ _ _ _ _ bu eid ev); auto.
    + now rewrite Hmax.
    + rewrite Hmax, Hfull. simpl. apply Z.leb_refl.
  - pose proof (delete_route_count (Some a) a eid d Ha Hu) as Hcount.
    pose proof (delete_route_unique (Some a) a eid d Ha Hu) as Hu1.
    destruct (delete_route_rows (Some a) a eid d Ha) as (_ & _ & Hev & _).
    fold d1 in Hcount, Hev, Hu1. rewrite Hold in Hcount. simpl in Hcount.
    assert (Hp : passes_checks no_faults c (Some bu) b d1 bu eid ev).
    { unfold passes_checks.
      rewrite (select_active_event_frame d d1 eid Hev), Hmax.
      repeat split; auto. simpl. apply Z.leb_gt. lia. }
    now destruct (post_rsvp_served c (Some bu) b d1 bu eid ev Hp Hu1).
Qed.

Lemma freed_place_is_taken_witness :
  let d1 := db_after (delete_rsvp_route false (Some Examples.alice) 1
                        Examples.db1) in
  post_rsvp no_faults (Examples.at_time 11) (Some Examples.bob)
    Examples.going Examples.db1
  = respond (Reply 400 (JError "Event is at full capacity")) Examples.db1 []
  /\ is_success
       (reply (post_rsvp no_faults (Examples.at_time 11) (Some Examples.bob)
                 Examples.going d1)) = true.
Proof.
  apply (freed_place_is_taken (Examples.at_time 11) Examples.alice
           Examples.bob Examples.going Examples.db1 1 1 Examples.dinner);
    try reflexivity.
  vm_compute. repeat constructor. simpl. tauto.
Defined.

(** X7.  An RSVP that is created and then deleted leaves the table of
    RSVPs as it was before the two requests; the AUTOINCREMENT counter has
    moved on, so the id of the deleted row is not given out again. *)
Theorem create_then_delete (c : Clock) (s : Session) (b : RsvpBody) (d : Db)
    (u : SessionUser) (eid : Z) (ev : Event) :
  passes_checks no_faults c s b d u eid ev ->
  select_rsvp d (su_id u) eid = None ->
  let o1 := post_rsvp no_faults c s b d in
  let o2 := delete_rsvp_route false s eid (db_after o1) in
  reply o2 = Reply 200 (JMessage "RSVP deleted successfully")
  /\ rsvps (db_after o2) = rsvps d
  /\ users (db_after o2) = users d /\ events (db_after o2) = events d
  /\ rsvps_seq d < rsvps_seq (db_after o2)
  /\ forall r, In r (rsvps d) -> r_id r < rsvps_seq (db_after o2).
Proof.
  intros Hp Hnone o1 o2.
  assert (Ho1 : o1 = respond (saved_reply no_faults (su_id u) eid
                                (db_inserted c (su_id u) eid b d))
                       (db_inserted c (su_id u) eid b d)
                       [Inserted (new_row c (su_id u) eid b d)]).
  { unfold o1. rewrite (post_rsvp_passes _ _ _ _ _ _ _ _ Hp).
    destruct Hp as (_ & Hv & _).
    destruct (validateRSVP_ok b Hv) as [_ Hck].
    unfold upsertRSVP, insert_rsvp, db_call. simpl.
    rewrite Hnone, Hck. simpl.
    assert (Hq : unique_rsvp_ok (rsvps d) (su_id u) eid = true).
    { unfold unique_rsvp_ok. apply find_none_existsb in Hnone.
      unfold select_rsvp in Hnone. now rewrite Hnone. }
    rewrite Hq. reflexivity. }
  destruct Hp as (Ha & _).
  assert (Hno : existsb (rsvp_for (su_id u) eid) (rsvps d) = false).
  { now apply find_none_existsb. }
  assert (Hself : rsvp_for (su_id u) eid (new_row c (su_id u) eid b d) = true).
  { unfold rsvp_for. simpl. now rewrite !Z.eqb_refl. }
  unfold o2, delete_rsvp_route, delete_rsvp. rewrite Ha, Ho1. simpl.
  rewrite filter_app, (filter_negb_none _ _ Hno). simpl. rewrite Hself.
  simpl. rewrite app_nil_r, length_app. simpl.
  replace (List.length (rsvps d) + 1 - List.length (rsvps d))%nat
    with 1%nat by lia.
  simpl. repeat split.
  - unfold next_rowid. lia.
  - intros r Hin. unfold next_rowid.
    pose proof (max_rowid_bound (map r_id (rsvps d)) (r_id r)
                  (in_map r_id _ _ Hin)). lia.
Qed.

Lemma create_then_delete_witness :
  let o1 := post_rsvp no_faults (Examples.at_time 11) (Some Examples.bob)
              Examples.perhaps Examples.db1 in
  let o2 := delete_rsvp_route false (Some Examples.bob) 1 (db_after o1) in
  reply o2 = Reply 200 (JMessage "RSVP deleted successfully")
  /\ rsvps (db_after o2) = rsvps Examples.db1
  /\ users (db_after o2) = users Examples.db1
  /\ events (db_after o2) = events Examples.db1
  /\ rsvps_seq Examples.db1 < rsvps_seq (db_after o2)
  /\ forall r, In r (rsvps Examples.db1) -> r_id r < rsvps_seq (db_after o2).
Proof.
  apply (create_then_delete (Examples.at_time 11) (Some Examples.bob)
           Examples.perhaps Examples.db1 Examples.bob 1 Examples.dinner).
  - concrete_checks.
  - reflexivity.
Defined.

End RsvpMoreFacts.

(** ** Facts about GET /rsvps/event/:eventId *)

Module ReadFacts.
Import Store Http Reads StoreFacts.

Lemma insert_desc_perm v l : Permutation (insert_desc v l) (v :: l).
Proof.
  induction l as [|x l IH]; simpl; [reflexivity |].
  destruct (v_rsvp_date x <=? v_rsvp_date v)%Z; [reflexivity |].
  rewrite IH. apply perm_swap.
Qed.

Lemma order_by_date_desc_perm l : Permutation (order_by_date_desc l) l.
Proof.
  induction l as [|v l IH]; simpl; [reflexivity |].
  rewrite insert_desc_perm. now constructor.
Qed.

Lemma insert_desc_sorted v l : date_desc l -> date_desc (insert_desc v l).
Proof.
  induction l as [|x l IH]; simpl.
  - intros _. split; [intros y [] | exact I].
  - intros [Hx Hl].
    destruct (v_rsvp_date x <=? v_rsvp_date v)%Z eqn:Hle; simpl.
    + apply Z.leb_le in Hle. split; [| auto].
      intros y [<- | Hy]; [exact Hle | specialize (Hx y Hy); lia].
    + apply Z.leb_gt in Hle. split; [| auto].
      intros y Hy.
      apply (Permutation_in _ (insert_desc_perm v l)) in Hy.
      destruct Hy as [<- | Hy]; [lia | auto].
Qed.

Lemma order_by_date_desc_sorted l : date_desc (order_by_date_desc l).
Proof.
  induction l as [|v l IH]; simpl; [exact I | now apply insert_desc_sorted].
Qed.

(** X8.  The list of an event's RSVPs runs from the latest response to
    the earliest, holds the rows of the join of this event's RSVPs with
    their users and nothing else. *)
Theorem event_rsvps_sorted (eid : Z) (d : Db) :
  exists doc,
    get_event_rsvps false eid d = Listed doc
    /\ date_desc (er_rsvps doc)
    /\ Permutation (er_rsvps doc) (joined_rsvps d eid)
    /\ forall v, In v (er_rsvps doc) ->
         exists r u, In r (rsvps d) /\ r_event_id r = eid
                     /\ In u (users d) /\ u_id u = r_user_id r
                     /\ v = view_of r u.
Proof.
  eexists. split; [reflexivity |]. simpl.
  split; [apply order_by_date_desc_sorted |].
  split; [apply order_by_date_desc_perm |].
  intros v Hin.
  apply (Permutation_in _ (order_by_date_desc_perm _)) in Hin.
  unfold joined_rsvps in Hin. apply in_flat_map in Hin as (r & Hr & Hv).
  apply filter_In in Hr as [Hr He]. unfold of_event in He.
  apply Z.eqb_eq in He.
  unfold join_users in Hv. apply in_map_iff in Hv as (u & Hv & Hu).
  apply filter_In in Hu as [Hu Hid]. apply Z.eqb_eq in Hid.
  exists r, u. auto.
Qed.

Lemma with_status_length_order s l :
  List.length (with_status s (order_by_date_desc l))
  = List.length (with_status s l).
Proof.
  unfold with_status.
  assert (Hins : forall v l',
             List.length
               (filter (fun x => (v_status x =? s)%string) (insert_desc v l'))
             = List.length
                 (filter (fun x => (v_status x =? s)%string) (v :: l'))).
  { intros v l'. induction l' as [|x l' IH]; simpl; [reflexivity |].
    destruct (v_rsvp_date x <=? v_rsvp_date v)%Z; simpl; [reflexivity |].
    simpl in IH.
    destruct (v_status x =? s)%string, (v_status v =? s)%string;
      simpl in *; lia. }
  induction l as [|v l IH]; simpl; [reflexivity |].
  rewrite Hins. simpl.
  destruct (v_status v =? s)%string; simpl; lia.
Qed.

Lemma three_groups l :
  (forall v, In v l -> check_rsvp_status (v_status v) = true) ->
  (List.length l
   = List.length (with_status "attending" l)
     + List.length (with_status "maybe" l)
     + List.length (with_status "not_attending" l))%nat.
Proof.
  unfold with_status.
  induction l as [|v l IH]; simpl; [reflexivity |].
  intros Hok. specialize (IH (fun x Hx => Hok x (or_intror Hx))).
  pose proof (Hok v (or_introl eq_refl)) as Hv.
  unfold check_rsvp_status in Hv.
  destruct (v_status v =? "attending")%string eqn:Ha.
  - apply String.eqb_eq in Ha. rewrite Ha. simpl. lia.
  - destruct (v_status v =? "maybe")%string eqn:Hm.
    + apply String.eqb_eq in Hm. rewrite Hm. simpl. lia.
    + simpl in Hv. apply String.eqb_eq in Hv. rewrite Hv. simpl. lia.
Qed.

(** X9.  When the stored statuses are the three of the CHECK constraint,
    the three groups of the reply split its list: [total] is the sum of
    their sizes and [attending_count] is the size of the first. *)
Theorem event_rsvps_grouped (eid : Z) (d : Db) :
  statuses_ok d ->
  exists doc,
    get_event_rsvps false eid d = Listed doc
    /\ er_total doc = List.length (er_rsvps doc)
    /\ (er_total doc
        = List.length (er_attending doc) + List.length (er_maybe doc)
          + List.length (er_not_attending doc))%nat
    /\ er_attending_count doc = List.length (er_attending doc)
    /\ (forall v, In v (er_attending doc) ->
          In v (er_rsvps doc) /\ v_status v = "attending")
    /\ (forall v, In v (er_maybe doc) ->
          In v (er_rsvps doc) /\ v_status v = "maybe")
    /\ (forall v, In v (er_not_attending doc) ->
          In v (er_rsvps doc) /\ v_status v = "not_attending").
Proof.
  intros Hok. eexists. split; [reflexivity |]. simpl.
  split; [reflexivity |]. split.
  - apply three_groups. intros v Hin.
    apply (Permutation_in _ (order_by_date_desc_perm _)) in Hin.
    unfold joined_rsvps in Hin. apply in_flat_map in Hin as (r & Hr & Hv).
    apply filter_In in Hr as [Hr _].
    unfold join_users in Hv. apply in_map_iff in Hv as (u & <- & _).
    simpl. now apply Hok.
  - split; [reflexivity |].
    repeat split; unfold with_status in H; apply filter_In in H as [Hin Hs];
      auto; now apply String.eqb_eq in Hs.
Qed.

Lemma filter_unique_id (l : list User) (u : User) :
  NoDup (map u_id l) -> In u l ->
  filter (fun x => (u_id x =? u_id u)%Z) l = [u].
Proof.
  induction l as [|x l IH]; simpl; [tauto |].
  intros Hnd Hin. inversion Hnd as [|k ks Hnotin Hnd']; subst.
  destruct Hin as [-> | Hin].
  - rewrite Z.eqb_refl. f_equal. apply filter_none.
    destruct (existsb (fun x => (u_id x =? u_id u)%Z) l) eqn:Hex;
      [| reflexivity].
    apply existsb_exists in Hex as (y & Hy & Hid). apply Z.eqb_eq in Hid.
    exfalso. apply Hnotin. rewrite <- Hid. now apply in_map.
  - destruct (u_id x =? u_id u)%Z eqn:Hid.
    + apply Z.eqb_eq in Hid. exfalso. apply Hnotin. rewrite Hid.
      now apply in_map.
    + now apply IH.
Qed.

Lemma joined_attending d eid l :
  NoDup (map u_id (users d)) ->
  (forall r, In r l -> exists u, In u (users d) /\ u_id u = r_user_id r) ->
  List.length
    (with_status "attending"
       (flat_map (join_users d) (filter (of_event eid) l)))
  = attending_in eid l.
Proof.
  intros Hpk. unfold attending_in, with_status.
  induction l as [|r l IH]; simpl; [reflexivity |].
  intros Hfk. specialize (IH (fun x Hx => Hfk x (or_intror Hx))).
  unfold is_attending at 1. unfold of_event at 1.
  destruct (r_event_id r =? eid)%Z; simpl; [| exact IH].
  destruct (Hfk r (or_introl eq_refl)) as (u & Hu & Hid).
  unfold join_users at 1. rewrite <- Hid, (filter_unique_id _ u Hpk Hu).
  simpl. destruct (r_status r =? "attending")%string; simpl; now rewrite IH.
Qed.

(** X10.  When every RSVP row has its user row, the [attending_count] of
    the reply is the count that the capacity check of POST /rsvps
    compares with [max_attendees]. *)
Theorem event_rsvps_count_is_capacity_count (eid : Z) (d : Db) :
  rsvp_users_ok d ->
  exists doc,
    get_event_rsvps false eid d = Listed doc
    /\ Z.of_nat (er_attending_count doc) = count_attending d eid.
Proof.
  intros [Hpk Hfk]. eexists. split; [reflexivity |]. simpl.
  rewrite count_attending_eq. f_equal.
  unfold select_event_rsvps, joined_rsvps.
  rewrite with_status_length_order. now apply joined_attending.
Qed.

Lemma event_rsvps_grouped_witness :
  exists doc,
    get_event_rsvps false 1 Examples.db1 = Listed doc
    /\ er_total doc = List.length (er_rsvps doc)
    /\ (er_total doc
        = List.length (er_attending doc) + List.length (er_maybe doc)
          + List.length (er_not_attending doc))%nat
    /\ er_attending_count doc = List.length (er_attending doc)
    /\ (forall v, In v (er_attending doc) ->
          In v (er_rsvps doc) /\ v_status v = "attending")
    /\ (forall v, In v (er_maybe doc) ->
          In v (er_rsvps doc) /\ v_status v = "maybe")
    /\ (forall v, In v (er_not_attending doc) ->
          In v (er_rsvps doc) /\ v_status v = "not_attending").
Proof.
  apply (event_rsvps_grouped 1 Examples.db1).
  intros r Hin. vm_compute in Hin. destruct Hin as [<- | []]. reflexivity.
Defined.

Lemma event_rsvps_count_is_capacity_count_witness :
  exists doc,
    get_event_rsvps false 1 Examples.db1 = Listed doc
    /\ Z.of_nat (er_attending_count doc) = count_attending Examples.db1 1.
Proof.
  apply (event_rsvps_count_is_capacity_count 1 Examples.db1).
  split.
  - repeat constructor. simpl. tauto.
  - intros r Hin. vm_compute in Hin. destruct Hin as [<- | []].
    exists Examples.alice_row. split; [left |]; reflexivity.
Defined.

End ReadFacts.

(** ** Facts about [routes/events.js] *)

Module EventFacts.
Import Store Http Rsvps Events StoreFacts RsvpFacts RsvpMoreFacts.

Lemma find_app_fresh {A} (p : A -> bool) l a :
  existsb p l = false -> p a = true -> find p (l ++ [a]) = Some a.
Proof.
  induction l as [|x l IH]; simpl.
  - intros _ ->. reflexivity.
  - destruct (p x); simpl; [discriminate | exact IH].
Qed.

Lemma fresh_id_unused seq (l : list Event) :
  existsb (has_id (next_rowid seq (map e_id l))) l = false.
Proof.
  destruct (existsb _ l) eqn:Hex; [| reflexivity].
  apply existsb_exists in Hex as (e & Hin & Hid). unfold has_id in Hid.
  apply Z.eqb_eq in Hid. exfalso.
  apply (next_rowid_fresh seq (map e_id l)). rewrite <- Hid.
  now apply in_map.
Qed.

Lemma capacity_of_body m :
  match m with
  | None => True
  | Some (Some n) => 1 <= n
  | Some None => False
  end ->
  match max_or_null m with
  | Some n => 1 <= n
  | None => True
  end.
Proof.
  destruct m as [[n|]|]; simpl; auto.
  intros Hn. destruct (n =? 0)%Z; auto.
Qed.

Section WithDates.

Variable isISO8601 : string -> bool.
Variable date_value : string -> option Z.

Lemma validateEvent_ok now b :
  validateEvent isISO8601 date_value now b = [] ->
  not_in_future (date_value (eventDate b)) now = false
  /\ match max_or_null (maxAttendees b) with
     | Some n => 1 <= n
     | None => True
     end.
Proof.
  unfold validateEvent. intros H.
  apply app_eq_nil in H as [_ H]. apply app_eq_nil in H as [_ H].
  apply app_eq_nil in H as [_ H]. apply app_eq_nil in H as [Hd H].
  apply app_eq_nil in H as [_ Hm].
  split.
  - destruct (not_in_future _ now); [discriminate | reflexivity].
  - apply capacity_of_body. destruct (maxAttendees b) as [[n|]|]; auto.
    + destruct (1 <=? n)%Z eqn:Hn; [now apply Z.leb_le | discriminate].
    + discriminate.
Qed.





(** *** What each route can do to the catalog *)

Lemma post_event_cases f now s b c :
  ev_after (post_event isISO8601 date_value f now s b c) = c
  \/ exists u lastID,
       authMiddleware s = inr u
       /\ validateEvent isISO8601 date_value now b = []
       /\ insert_event false c (title b) (description b)
            (date_value (eventDate b)) (location b)
            (max_or_null (maxAttendees b)) (su_id u)
          = Ok (ev_after (post_event isISO8601 date_value f now s b c),
               lastID).
Proof.
  unfold post_event.
  destruct (authMiddleware s) as [r | u] eqn:Ha; [now left |].
  destruct (validateEvent isISO8601 date_value now b) eqn:Hv; [| now left].
  unfold insert_event, db_call.
  destruct (ef_write f); [now left |].
  right. exists u. eexists. split; [reflexivity |]. split; [reflexivity |].
  destruct (ef_fetch f); reflexivity.
Qed.

Lemma put_event_cases f now s id b c :
  ev_after (put_event isISO8601 date_value f now s id b c) = c
  \/ exists u e,
       authMiddleware s = inr u
       /\ validateEvent isISO8601 date_value now b = []
       /\ select_event (store c) id = Some e
       /\ access_denied e u = false
       /\ update_event false c id (title b) (description b)
            (date_value (eventDate b)) (location b)
            (max_or_null (maxAttendees b))
          = Ok (ev_after (put_event isISO8601 date_value f now s id b c)).
Proof.
  unfold put_event.
  destruct (authMiddleware s) as [r | u] eqn:Ha; [now left |].
  destruct (validateEvent isISO8601 date_value now b) eqn:Hv; [| now left].
  unfold db_call. destruct (ef_owner f); [now left |].
  destruct (select_event (store c) id) as [e|] eqn:Hsel; [| now left].
  destruct (access_denied e u) eqn:Hden; [now left |].
  unfold update_event. destruct (ef_write f); [now left |].
  right. exists u, e. repeat split; auto.
  destruct (ef_fetch f); reflexivity.
Qed.

End WithDates.

Lemma delete_event_cases f fk s id c :
  ev_after (delete_event_route f fk s id c) = c
  \/ exists u e,
       authMiddleware s = inr u
       /\ select_event (store c) id = Some e
       /\ access_denied e u = false
       /\ ev_reply (delete_event_route f fk s id c)
          = Plain (Reply 200 (JMessage "Event deleted successfully"))
       /\ delete_event false fk c id
          = Ok (ev_after (delete_event_route f fk s id c)).
Proof.
  unfold delete_event_route.
  destruct (authMiddleware s) as [r | u] eqn:Ha; [now left |].
  unfold db_call. destruct (ef_owner f); [now left |].
  destruct (select_event (store c) id) as [e|] eqn:Hsel; [| now left].
  destruct (access_denied e u) eqn:Hden; [now left |].
  unfold delete_event. destruct (ef_write f); [now left |].
  right. exists u, e. repeat split; auto.
Qed.

Lemma map_rewrite_ids id t de dt lo m l :
  map e_id (map (fun e => if has_id id e
                          then rewrite_event t de dt lo m e else e) l)
  = map e_id l.
Proof.
  rewrite map_map. apply map_ext. intros e. now destruct (has_id id e).
Qed.

Section Constraints.

Variable isISO8601 : string -> bool.
Variable date_value : string -> option Z.

(** X13.  POST, PUT and DELETE /events keep the primary key of [events]
    and keep every capacity NULL or at least 1, whatever the request and
    whatever the driver reports: a capacity of 0 never reaches the
    table. *)
Theorem event_routes_keep_constraints (c : Catalog) :
  event_ids_unique (store c) -> capacities_ok (store c) ->
  (forall f now s b,
     let c' := ev_after (post_event isISO8601 date_value f now s b c) in
     event_ids_unique (store c') /\ capacities_ok (store c'))
  /\ (forall f now s id b,
       let c' := ev_after (put_event isISO8601 date_value f now s id b c) in
       event_ids_unique (store c') /\ capacities_ok (store c'))
  /\ (forall f fk s id,
       let c' := ev_after (delete_event_route f fk s id c) in
       event_ids_unique (store c') /\ capacities_ok (store c')).
Proof.
  intros Hpk Hcap. split; [| split].
  - intros f now s b. cbv zeta.
    destruct (post_event_cases isISO8601 date_value f now s b c)
      as [-> | (u & lastID & _ & Hv & Hins)]; [auto |].
    destruct (validateEvent_ok isISO8601 date_value now b Hv) as [_ Hm].
    unfold insert_event in Hins. injection Hins as Hc Hid.
    rewrite <- Hc. simpl. split.
    + unfold event_ids_unique. simpl. rewrite map_app. simpl.
      apply NoDup_app; [exact Hpk | repeat constructor; simpl; tauto |].
      intros k Hin [<- | []]. now apply next_rowid_fresh in Hin.
    + intros e Hin. simpl in Hin. apply in_app_iff in Hin as [Hin | [<- | []]];
        [now apply Hcap | exact Hm].
  - intros f now s id b. cbv zeta.
    destruct (put_event_cases isISO8601 date_value f now s id b c)
      as [-> | (u & e & _ & Hv & _ & _ & Hupd)]; [auto |].
    destruct (validateEvent_ok isISO8601 date_value now b Hv) as [_ Hm].
    unfold update_event in Hupd. injection Hupd as Hc.
    rewrite <- Hc. simpl. split.
    + unfold event_ids_unique. simpl. now rewrite map_rewrite_ids.
    + intros e' Hin. simpl in Hin. apply in_map_iff in Hin as (x & Hx & Hin).
      destruct (has_id id x); subst e'; [exact Hm | now apply Hcap].
  - intros f fk s id. cbv zeta.
    destruct (delete_event_cases f fk s id c)
      as [-> | (u & e & _ & _ & _ & _ & Hdel)]; [auto |].
    unfold delete_event in Hdel. injection Hdel as Hc.
    rewrite <- Hc. simpl. split.
    + unfold event_ids_unique. simpl. now apply nodup_map_filter.
    + intros e' Hin. simpl in Hin. apply filter_In in Hin as [Hin _].
      now apply Hcap.
Qed.

End Constraints.


Section Composition.

Variable isISO8601 : string -> bool.
Variable date_value : string -> option Z.





End Composition.

Lemma find_filter_other id id' (l : list Event) :
  id' <> id ->
  find (has_id id') (filter (fun e => negb (has_id id e)) l)
  = find (has_id id') l.
Proof.
  intros Hne. induction l as [|x l IH]; simpl; [reflexivity |].
  destruct (has_id id x) eqn:Hx; simpl.
  - destruct (has_id id' x) eqn:Hx'; [| exact IH].
    unfold has_id in *. apply Z.eqb_eq in Hx, Hx'. congruence.
  - destruct (has_id id' x); [reflexivity | exact IH].
Qed.

(** X16.  DELETE /events/:id from the owner or an admin removes that
    event and no other.  With foreign keys enforced on the connection the
    RSVPs of the event go with it and all other RSVPs stay; without, the
    table of RSVPs is as before.  Either way a later RSVP for the event
    gets the not-found failure. *)
Theorem delete_event_removes (f : EventFaults) (fk : bool) (s : Session)
    (u : SessionUser) (id : Z) (c : Catalog) (e : Event) :
  authMiddleware s = inr u -> select_event (store c) id = Some e ->
  e_created_by e = su_id u \/ su_role u = "admin" ->
  ef_owner f = false -> ef_write f = false ->
  let o := delete_event_route f fk s id c in
  let c' := ev_after o in
  ev_reply o = Plain (Reply 200 (JMessage "Event deleted successfully"))
  /\ select_event (store c') id = None
  /\ (forall id', id' <> id ->
        select_event (store c') id' = select_event (store c) id')
  /\ users (store c') = users (store c)
  /\ (if fk
      then forall r, In r (rsvps (store c'))
                     <-> In r (rsvps (store c)) /\ r_event_id r <> id
      else rsvps (store c') = rsvps (store c))
  /\ forall f' clk s' u' rb,
       authMiddleware s' = inr u' -> validateRSVP rb = [] ->
       eventId rb = Some id -> fail_event f' = false ->
       post_rsvp f' clk s' rb (store c')
       = respond (Reply 404 (JError "Event not found or inactive"))
           (store c') [].
Proof.
  intros Ha Hsel Hown Hfo Hfw. cbv zeta.
  assert (Hden : access_denied e u = false).
  { unfold access_denied. destruct Hown as [Ho | Hr].
    - rewrite Ho, Z.eqb_refl. reflexivity.
    - rewrite Hr. simpl. apply andb_false_r. }
  unfold delete_event_route, delete_event, db_call.
  rewrite Ha, Hfo, Hsel, Hden, Hfw. simpl.
  split; [reflexivity |]. unfold select_event. simpl.
  split; [apply find_negb_filter |].
  split; [intros id' Hne; now apply find_filter_other |].
  split; [reflexivity |]. split.
  - destruct fk; [| reflexivity].
    intros r. rewrite filter_In. unfold Reads.of_event.
    rewrite negb_true_iff, Z.eqb_neq. tauto.
  - intros f' clk s' u' rb Ha' Hv' He' Hf'.
    unfold post_rsvp, checked_rsvp, db_call. rewrite Ha', Hv', He', Hf'.
    rewrite select_active_event_none; [reflexivity |].
    simpl. intros ev Hin Hid. apply filter_In in Hin as [_ Hin].
    unfold has_id in Hin. apply negb_true_iff in Hin.
    apply Z.eqb_neq in Hin. contradiction.
Qed.

Lemma filter_id_at_most_one (l : list User) k :
  NoDup (map u_id l) ->
  (List.length (filter (fun u => (u_id u =? k)%Z) l) <= 1)%nat.
Proof.
  intros Hpk.
  destruct (filter (fun u => (u_id u =? k)%Z) l) as [|u rest] eqn:Hf;
    [simpl; lia |].
  assert (Hin : In u (filter (fun u => (u_id u =? k)%Z) l))
    by (rewrite Hf; now left).
  apply filter_In in Hin as [Hin Hid]. apply Z.eqb_eq in Hid. subst k.
  rewrite (ReadFacts.filter_unique_id l u Hpk Hin) in Hf.
  inversion Hf. simpl. lia.
Qed.

(** X17.  GET /events/:id replies 404 exactly when no event has the id,
    whatever its status.  With the primary key of [users] kept, the
    [rsvp_count] it shows is the count that the capacity check of
    POST /rsvps uses, and the list is that of GET /rsvps/event/:id. *)
Theorem get_event_count_is_capacity_count (id : Z) (d : Db) :
  NoDup (map u_id (users d)) ->
  match select_event d id with
  | Some e =>
      exists pg,
        get_event false false id d = Page pg (Reads.select_event_rsvps d id)
        /\ pg_event pg = e
        /\ Z.of_nat (pg_rsvp_count pg) = count_attending d id
  | None =>
      get_event false false id d = Plain (Reply 404 (JError "Event not found"))
  end.
Proof.
  intros Hpk. unfold get_event, select_event_page, db_call.
  destruct (select_event d id) as [e|] eqn:Hsel; [| reflexivity].
  eexists. split; [reflexivity |]. split; [reflexivity |]. simpl.
  assert (Hid : e_id e = id).
  { unfold select_event in Hsel. apply find_some in Hsel as [_ Hid].
    now apply Z.eqb_eq in Hid. }
  rewrite Hid, count_attending_eq. unfold attending_in.
  pose proof (filter_id_at_most_one (users d) (e_created_by e) Hpk).
  destruct (List.length
              (filter (fun u => (u_id u =? e_created_by e)%Z) (users d)))
    as [|[|n]]; simpl; try lia.
Qed.

(** *** Concrete runs of the event routes *)



Lemma event_routes_keep_constraints_witness :
  event_ids_unique
    (store (ev_after
              (post_event MoreExamples.toy_iso MoreExamples.toy_date
                 no_event_faults 100 (Some Examples.alice)
                 MoreExamples.party MoreExamples.catalog0)))
  /\ capacities_ok
       (store (ev_after
                 (post_event MoreExamples.toy_iso MoreExamples.toy_date
                    no_event_faults 100 (Some Examples.alice)
                    MoreExamples.party MoreExamples.catalog0))).
Proof.
  refine (proj1 (event_routes_keep_constraints MoreExamples.toy_iso
                   MoreExamples.toy_date MoreExamples.catalog0 _ _)
            no_event_faults 100 (Some Examples.alice) MoreExamples.party).
  - repeat constructor; simpl; intuition discriminate.
  - intros e [<- | [<- | []]]; simpl; [lia | exact I].
Defined.



Lemma delete_event_removes_witness :
  select_event
    (store (ev_after (delete_event_route no_event_faults true
                        (Some Examples.alice) 1 MoreExamples.catalog0))) 1
  = None
  /\ forall r,
       In r (rsvps (store (ev_after
                             (delete_event_route no_event_faults true
                                (Some Examples.alice) 1
                                MoreExamples.catalog0))))
       <-> In r (rsvps Examples.db1) /\ r_event_id r <> 1.
Proof.
  destruct (delete_event_removes no_event_faults true (Some Examples.alice)
              Examples.alice 1 MoreExamples.catalog0 Examples.dinner
              eq_refl eq_refl (or_introl eq_refl) eq_refl eq_refl)
    as (_ & Hgone & _ & _ & Hrows & _).
  split; assumption.
Defined.

Lemma get_event_count_is_capacity_count_witness :
  exists pg,
    get_event false false 1 Examples.db1
    = Page pg (Reads.select_event_rsvps Examples.db1 1)
    /\ pg_event pg = Examples.dinner
    /\ Z.of_nat (pg_rsvp_count pg) = count_attending Examples.db1 1.
Proof.
  apply (get_event_count_is_capacity_count 1 Examples.db1).
  repeat constructor. simpl. tauto.
Defined.

End EventFacts.

(** ** More facts about the identity service *)

Module AuthMoreFacts.
Import Store Http Auth StoreFacts RsvpMoreFacts.


Lemma fresh_user_found seq (l : list User) row :
  u_id row = next_rowid seq (map u_id l) ->
  find (fun u => (u_id u =? u_id row)%Z) (l ++ [row]) = Some row.
Proof.
  intros Hid. apply EventFacts.find_app_fresh; [| apply Z.eqb_refl].
  destruct (existsb _ l) eqn:Hex; [| reflexivity].
  apply existsb_exists in Hex as (u & Hin & Heq). apply Z.eqb_eq in Heq.
  exfalso. apply (next_rowid_fresh seq (map u_id l)).
  rewrite <- Hid, <- Heq. now apply in_map.
Qed.


Section Register.

Variable isEmail : string -> bool.
Variable bcrypt_hash : string -> string -> option string.





(** X19.  POST /auth/register never throws outside its [try], never
    touches events or RSVPs, and sets the session on success only.  A
    failed registration leaves the store as it was, except for the failure
    'User created but fetch failed', which is sent after the user row was
    added and without a session. *)
Theorem registration_failures (f : RegisterFaults) (salt : string)
    (s : Session) (b : RegisterBody) (d : Db) :
  let o := post_register isEmail bcrypt_hash f salt s b d in
  a_reply o <> Uncaught
  /\ events (a_db o) = events d /\ rsvps (a_db o) = rsvps d
  /\ (is_success (a_reply o) = false -> a_session o = s)
  /\ (is_success (a_reply o) = false ->
      a_reply o <> Reply 500 (JError "User created but fetch failed") ->
      a_db o = d)
  /\ (a_reply o = Reply 500 (JError "User created but fetch failed") ->
      exists row, users (a_db o) = (users d ++ [row])%list
                  /\ u_username row = reg_username b).
Proof.
  cbv zeta. unfold post_register, db_call.
  destruct (validateRegistration isEmail b);
    [| repeat split; simpl; congruence].
  destruct (bcrypt_hash (reg_password b) salt) as [hash|];
    [| repeat split; simpl; congruence].
  destruct (fail_lookup f); [repeat split; simpl; congruence |].
  destruct (select_user d (reg_username b) (reg_email b));
    [repeat split; simpl; congruence |].
  unfold insert_user. destruct (fail_insert f);
    [repeat split; simpl; congruence |].
  destruct (_ || _); [repeat split; simpl; congruence |].
  destruct (fail_fetch f).
  { repeat split; simpl; try congruence. intros _. eexists.
    split; reflexivity. }
  unfold select_user_by_id. simpl.
  set (row := {| u_id := next_rowid (users_seq d) (map u_id (users d));
                 u_username := reg_username b; u_email := reg_email b;
                 u_password_hash := hash; u_role := "user";
                 u_first_name := reg_firstName b;
                 u_last_name := reg_lastName b |}).
  change (next_rowid (users_seq d) (map u_id (users d))) with (u_id row).
  rewrite (fresh_user_found (users_seq d) (users d) row eq_refl).
  repeat split; simpl; try congruence;
    intros H; vm_compute in H; discriminate.
Qed.

(** X20.  Whatever the request and whatever the driver reports,
    registration keeps the usernames, the emails and the ids of [users]
    free of duplicates. *)
Theorem registration_keeps_users_unique (f : RegisterFaults) (salt : string)
    (s : Session) (b : RegisterBody) (d : Db) :
  NoDup (map u_username (users d)) -> NoDup (map u_email (users d)) ->
  NoDup (map u_id (users d)) ->
  let d' := a_db (post_register isEmail bcrypt_hash f salt s b d) in
  NoDup (map u_username (users d')) /\ NoDup (map u_email (users d'))
  /\ NoDup (map u_id (users d')).
Proof.
  intros Hn He Hi. cbv zeta. unfold post_register, db_call.
  destruct (validateRegistration isEmail b); [| simpl; auto].
  destruct (bcrypt_hash (reg_password b) salt) as [hash|]; [| simpl; auto].
  destruct (fail_lookup f); [simpl; auto |].
  destruct (select_user d (reg_username b) (reg_email b)); [simpl; auto |].
  unfold insert_user. destruct (fail_insert f); [simpl; auto |].
  destruct (existsb (fun u => (u_username u =? reg_username b)%string)
              (users d)) eqn:Hxn; [simpl; auto |].
  destruct (existsb (fun u => (u_email u =? reg_email b)%string)
              (users d)) eqn:Hxe; [simpl; auto |].
  simpl.
  assert (Hd' : forall o1 o2 o3 : AuthOutcome,
            a_db o1 = a_db o2 -> a_db o1 = a_db o3 ->
            forall r : Result (option User),
              a_db (match r with
                    | Err => o1
                    | Ok (Some _) => o2
                    | Ok None => o3
                    end) = a_db o1).
  { intros o1 o2 o3 H2 H3 [|[u|]]; congruence. }
  match goal with
  | |- context [a_db (match ?r with Err => ?o1 | Ok _ => _ end)] =>
      assert (Hdb : a_db (match r with
                          | Err => o1
                          | Ok (Some user) =>
                              answer
                                (Reply 201
                                   (JUser "User registered successfully"
                                      (session_of_row user)))
                                (a_db o1) (Some (session_of_row user))
                          | Ok None => answer Uncaught (a_db o1) s
                          end) = a_db o1)
        by (destruct r as [|[u|]]; reflexivity)
  end.
  simpl in Hdb. rewrite Hdb. simpl. rewrite !map_app. simpl.
  repeat split;
    (apply NoDup_app;
       [assumption | repeat constructor; simpl; tauto |]).
  - intros k Hin [<- | []]. apply in_map_iff in Hin as (u & Hu & Hin).
    assert (Hex : existsb (fun u => (u_username u =? reg_username b)%string)
                    (users d) = true).
    { apply existsb_exists. exists u. split; [exact Hin |].
      now apply String.eqb_eq. }
    congruence.
  - intros k Hin [<- | []]. apply in_map_iff in Hin as (u & Hu & Hin).
    assert (Hex : existsb (fun u => (u_email u =? reg_email b)%string)
                    (users d) = true).
    { apply existsb_exists. exists u. split; [exact Hin |].
      now apply String.eqb_eq. }
    congruence.
  - intros k Hin [<- | []]. now apply next_rowid_fresh in Hin.
Qed.

End Register.

Section Login.

Variable bcrypt_compare : string -> string -> option bool.

(** X21.  POST /auth/login never writes to the store.  It succeeds only
    for a stored user whose username or email is the name given and whose
    hash bcrypt accepts for the password given; the session then is that
    user's.  A failed login leaves the session as it was. *)
Theorem login_sound (fault : bool) (s : Session) (b : LoginBody) (d : Db) :
  let o := post_login bcrypt_compare fault s b d in
  a_db o = d
  /\ (is_success (a_reply o) = false -> a_session o = s)
  /\ (is_success (a_reply o) = true ->
      exists u,
        In u (users d)
        /\ (u_username u = login_username b \/ u_email u = login_username b)
        /\ bcrypt_compare (login_password b) (u_password_hash u) = Some true
        /\ a_session o = Some (session_of_row u)
        /\ a_reply o = Reply 200 (JUser "Login successful"
                                    (session_of_row u))).
Proof.
  cbv zeta. unfold post_login, db_call.
  destruct (validateLogin b);
    [| repeat split; simpl; try congruence; discriminate].
  destruct fault; [repeat split; simpl; try congruence; discriminate |].
  destruct (select_user d (login_username b) (login_username b)) as [u|]
    eqn:Hsel; [| repeat split; simpl; try congruence; discriminate].
  destruct (bcrypt_compare (login_password b) (u_password_hash u))
    as [[|]|] eqn:Hcmp;
    [| repeat split; simpl; try congruence; discriminate
     | repeat split; simpl; try congruence; discriminate].
  split; [reflexivity |]. split; [discriminate |].
  intros _. exists u. unfold select_user in Hsel.
  apply find_some in Hsel as [Hin Hm]. unfold user_named in Hm.
  apply orb_true_iff in Hm.
  repeat split; auto.
  destruct Hm as [Hm | Hm]; apply String.eqb_eq in Hm; auto.
Qed.

Variable isEmail : string -> bool.
Variable bcrypt_hash : string -> string -> option string.


End Login.


Lemma registration_keeps_users_unique_witness :
  let d' := a_db (post_register Examples.any_email Examples.toy_hash
                    Examples.no_register_faults "salt" None
                    MoreExamples.carol_signup Examples.db0) in
  NoDup (map u_username (users d')) /\ NoDup (map u_email (users d'))
  /\ NoDup (map u_id (users d')).
Proof.
  apply (registration_keeps_users_unique Examples.any_email Examples.toy_hash
           Examples.no_register_faults "salt" None MoreExamples.carol_signup
           Examples.db0); repeat constructor; simpl; tauto.
Defined.


(** *** The admin gate *)

(** X23.  [adminMiddleware] lets through exactly the sessions that
    [authMiddleware] lets through and whose role is 'admin'; whoever it
    lets through is refused by no ownership check of the event routes. *)
Theorem admin_gate (s : Session) (u : SessionUser) :
  (Gate.adminMiddleware s = inr u
   <-> authMiddleware s = inr u /\ su_role u = "admin")
  /\ (Gate.adminMiddleware s = inr u ->
      forall e, Events.access_denied e u = false).
Proof.
  assert (Hiff : Gate.adminMiddleware s = inr u
                 <-> authMiddleware s = inr u /\ su_role u = "admin").
  { unfold Gate.adminMiddleware.
    destruct (authMiddleware s) as [r | u0]; [split; [discriminate |] |].
    - intros [H _]. discriminate.
    - destruct (su_role u0 =? "admin")%string eqn:Hr; simpl.
      + apply String.eqb_eq in Hr. split.
        * intros H. inversion H; subst. auto.
        * intros [H _]. exact H.
      + apply String.eqb_neq in Hr. split; [discriminate |].
        intros [H Hr']. inversion H; subst. contradiction. }
  split; [exact Hiff |].
  intros H e. apply Hiff in H as [_ Hr].
  unfold Events.access_denied. rewrite Hr. simpl. apply andb_false_r.
Qed.

End AuthMoreFacts.
